(** * Allergen detector: a shallow embedding of [src/allergen_detector.py]

    The development follows the layout of the Python module: the
    reference store ([AllergenDatabase]), the tokenizer
    ([IngredientProcessor]), the scoring rules ([RiskAssessor]) and the
    orchestrator ([AllergenDetector]).

    Python strings are sequences of Unicode code points, so a string is a
    list of code points here ([len] counts code points, which matters for
    the one-character stop words).  Python integers are [Z], Python floats
    are binary64 and are modelled by the primitive floats. *)

From Stdlib Require Import ZArith NArith List String Ascii Floats Uint63 Lia.
From stdpp Require Import gmap list.

Set Warnings "-inexact-float".
Local Open Scope N_scope.

(** ** Strings *)

Definition char := N.
Definition str := list char.

(** Decoding of the UTF-8 bytes of a literal of this file into code points. *)
Fixpoint utf8_decode (bs : list N) : str :=
  match bs with
  | [] => []
  | b0 :: t0 =>
    if b0 <? 128 then b0 :: utf8_decode t0
    else match t0 with
    | [] => []
    | b1 :: t1 =>
      if b0 <? 224 then ((b0 - 192) * 64 + (b1 - 128)) :: utf8_decode t1
      else match t1 with
      | [] => []
      | b2 :: t2 =>
        if b0 <? 240
        then ((b0 - 224) * 4096 + (b1 - 128) * 64 + (b2 - 128)) :: utf8_decode t2
        else match t2 with
        | [] => []
        | b3 :: t3 =>
          ((b0 - 240) * 262144 + (b1 - 128) * 4096 + (b2 - 128) * 64 + (b3 - 128))
            :: utf8_decode t3
        end
      end
    end
  end.

Definition utf8 (s : string) : str :=
  utf8_decode (map N_of_ascii (list_ascii_of_string s)).

Definition chr (s : string) : char := List.hd 0 (utf8 s).

(** The tables of the Python runtime the module relies on: [str.isspace]
    (also the class [\s] of [re]), the class [\d], [str.lower] and the
    comparison of a pattern character with a text character under
    [re.IGNORECASE]. *)
Class Unicode := {
  isspace : char -> bool;
  isdecimal : char -> bool;
  lower : str -> str;
  ieq : char -> char -> bool
}.

(** ** The fragment of [re] used by the module

    A pattern is a sequence of items; an item is one character class,
    possibly under [?] or [*] (both greedy, with backtracking).  [a+] is
    [a] followed by [a*]. *)

Inductive atom :=
| Lit (c : char)
| OneOf (cs : list char)
| NoneOf (cs : list char)
| Space
| Digit.

Inductive item :=
| One (a : atom)
| Opt (a : atom)
| Star (a : atom).

Definition regex := list item.

Definition lit (s : str) : regex := map (fun c => One (Lit c)) s.
Definition plus (a : atom) : regex := [One a; Star a].

Section Re.
Context `{Unicode}.

(** [icase] is the flag [re.IGNORECASE]. *)
Variable icase : bool.

Definition char_match (p c : char) : bool :=
  if icase then ieq p c else N.eqb p c.

Definition atom_match (a : atom) (c : char) : bool :=
  match a with
  | Lit p => char_match p c
  | OneOf cs => existsb (fun p => char_match p c) cs
  | NoneOf cs => negb (existsb (fun p => char_match p c) cs)
  | Space => isspace c
  | Digit => isdecimal c
  end.

(** [match_here r s] is the match of [r] anchored at the head of [s]
    that the backtracking matcher finds first; the result is the text
    left after the match. *)
Fixpoint match_here (r : regex) (s : str) {struct r} : option str :=
  match r with
  | [] => Some s
  | One a :: r' =>
    match s with
    | c :: s' => if atom_match a c then match_here r' s' else None
    | [] => None
    end
  | Opt a :: r' =>
    match s with
    | c :: s' =>
      if atom_match a c
      then match match_here r' s' with
           | Some rest => Some rest
           | None => match_here r' s
           end
      else match_here r' s
    | [] => match_here r' s
    end
  | Star a :: r' =>
    (fix star (s : str) : option str :=
       match s with
       | c :: s' =>
         if atom_match a c
         then match star s' with
              | Some rest => Some rest
              | None => match_here r' s
              end
         else match_here r' s
       | [] => match_here r' s
       end) s
  end.

(** [re.sub(r, repl, s)]: the matches are taken from left to right and
    do not overlap; [skip] counts the characters still covered by the
    last match. *)
Fixpoint sub_from (r : regex) (repl : str) (skip : nat) (s : str) : str :=
  match s with
  | [] => match match_here r [] with Some _ => repl | None => [] end
  | c :: s' =>
    match skip with
    | S n => sub_from r repl n s'
    | O =>
      match match_here r s with
      | Some rest =>
        match (length s - length rest)%nat with
        | O => repl ++ c :: sub_from r repl O s'
        | S n => repl ++ sub_from r repl n s'
        end
      | None => c :: sub_from r repl O s'
      end
    end
  end.

Definition re_sub (r : regex) (repl : str) (s : str) : str :=
  sub_from r repl O s.

(** [re.split(r, s)]: [cur] is the piece being read. *)
Fixpoint split_from (r : regex) (skip : nat) (cur : str) (s : str) : list str :=
  match s with
  | [] => match match_here r [] with Some _ => [cur; []] | None => [cur] end
  | c :: s' =>
    match skip with
    | S n => split_from r n cur s'
    | O =>
      match match_here r s with
      | Some rest =>
        match (length s - length rest)%nat with
        | O => cur :: split_from r O [c] s'
        | S n => cur :: split_from r n [] s'
        end
      | None => split_from r O (cur ++ [c]) s'
      end
    end
  end.

Definition re_split (r : regex) (s : str) : list str :=
  split_from r O [] s.
End Re.

(** ** Methods of [str] *)

Section Str.
Context `{Unicode}.

Fixpoint lstrip (s : str) : str :=
  match s with
  | c :: s' => if isspace c then lstrip s' else s
  | [] => []
  end.

Definition rstrip (s : str) : str := rev (lstrip (rev s)).

Definition strip (s : str) : str := rstrip (lstrip s).

Fixpoint startswith (s prefix : str) : bool :=
  match prefix, s with
  | [], _ => true
  | p :: prefix', c :: s' => N.eqb p c && startswith s' prefix'
  | _ :: _, [] => false
  end.

(** [s.split(sep)] for a one-character separator. *)
Fixpoint split_chr (sep : char) (cur : str) (s : str) : list str :=
  match s with
  | [] => [cur]
  | c :: s' =>
    if N.eqb c sep then cur :: split_chr sep [] s'
    else split_chr sep (cur ++ [c]) s'
  end.
End Str.

(** ** IngredientProcessor *)

Definition separators : regex :=
  [One (OneOf (utf8 ",，;；、" ++ [10])); Star Space].

Definition stop_words : list str :=
  map utf8
    ["ingredients"; "成分"; "原料"; "材料"; "contains"; "含有";
     "water"; "水"; "salt"; "盐"; "sugar"; "糖"; "oil"; "油";
     "natural"; "自然"; "artificial"; "人工"; "flavor"; "风味";
     "preservative"; "防腐剂"; "color"; "色素"; "vitamin"; "维生素"]%string.

Definition patterns_to_remove : list regex :=
  [ lit (utf8 "ingredient") ++ [Opt (Lit (chr "s")); One (OneOf (utf8 ":：")); Star Space];
    lit (utf8 "contain") ++ [Opt (Lit (chr "s")); One (OneOf (utf8 ":：")); Star Space];
    lit (utf8 "may contain") ++ [One (OneOf (utf8 ":：")); Star Space] ].

Definition prefixes_to_remove : list str :=
  map utf8 ["contains"; "contains*"; "may contain"; "+"]%string.

Section IngredientProcessor.
Context `{Unicode}.

Definition _clean_text (text : str) : str :=
  let text := re_sub false (plus Space) (utf8 " ") text in
  let text :=
    fold_left (fun text pattern => re_sub true pattern [] text)
              patterns_to_remove text in
  strip text.

Definition _clean_ingredient (ingredient : str) : str :=
  let ingredient := strip (lower ingredient) in
  let ingredient :=
    re_sub false (plus Digit ++ [Opt (Lit (chr "%"))]) [] ingredient in
  let ingredient :=
    re_sub false [One (Lit (chr "(")); Star (NoneOf (utf8 ")")); One (Lit (chr ")"))]
           [] ingredient in
  let ingredient :=
    fold_left
      (fun ingredient prefix =>
         if startswith ingredient prefix
         then strip (drop (length prefix) ingredient)
         else ingredient)
      prefixes_to_remove ingredient in
  if bool_decide (ingredient ∈ stop_words) then [] else ingredient.

(** [text] is [None] for Python's [None]; [not text] holds for [None]
    and for the empty string. *)
Definition extract_ingredients (text : option str) : list str :=
  match text with
  | None | Some [] => []
  | Some text =>
    let text := _clean_text text in
    let ingredients := re_split false separators text in
    fold_left
      (fun cleaned_ingredients ingredient =>
         let cleaned := _clean_ingredient ingredient in
         if negb (bool_decide (cleaned = [])) && (1 <? length cleaned)%nat
         then cleaned_ingredients ++ [cleaned]
         else cleaned_ingredients)
      ingredients []
  end.
End IngredientProcessor.

(** ** A concrete runtime table

    Exact for texts made of ASCII characters and of the CJK characters of
    the seed table and of the stop words: the whitespace table is the one
    of CPython, the decimal digits and the case mapping are those of
    ASCII, and the case-insensitive comparison knows the four non-ASCII
    characters that [re] equates with an ASCII letter. *)

Definition unicode_isspace (c : char) : bool :=
  ((9 <=? c) && (c <=? 13)) || ((28 <=? c) && (c <=? 32))
  || bool_decide (c ∈ [133; 160; 5760; 8232; 8233; 8239; 8287; 12288])
  || ((8192 <=? c) && (c <=? 8202)).

Definition ascii_isdecimal (c : char) : bool := (48 <=? c) && (c <=? 57).

Definition ascii_lower_char (c : char) : char :=
  if (65 <=? c) && (c <=? 90) then c + 32 else c.

Definition simple_fold (c : char) : char :=
  if bool_decide (c ∈ [304; 305]) then 105
  else if N.eqb c 8490 then 107
  else if N.eqb c 383 then 115
  else ascii_lower_char c.

#[export] Instance BasicUnicode : Unicode := {|
  isspace := unicode_isspace;
  isdecimal := ascii_isdecimal;
  lower := map ascii_lower_char;
  ieq := fun p c => N.eqb (simple_fold p) (simple_fold c)
|}.

(** ** AllergenDatabase

    The table [allergens] is the list of its rows in rowid order.  The
    columns [aliases] and [languages] may hold NULL ([None]). *)

Record row := {
  row_name : str;
  row_type : str;
  row_severity : Z;
  row_aliases : option str;
  row_languages : option str
}.

(** The dictionaries built by [search_allergens]. *)
Record allergen := {
  a_name : str;
  a_type : str;
  a_severity : Z;
  a_aliases : list str;
  a_languages : option str
}.

Definition base_allergens : list row :=
  [ {| row_name := utf8 "peanuts"; row_type := utf8 "peanut"; row_severity := 5;
       row_aliases := Some (utf8 "peanut,groundnut,arachis hypogaea,花生,落花生");
       row_languages := Some (utf8 "en:peanuts,zh:花生") |};
    {| row_name := utf8 "milk"; row_type := utf8 "dairy"; row_severity := 3;
       row_aliases := Some (utf8 "milk,dairy,lactose,casein,奶,牛奶,乳制品");
       row_languages := Some (utf8 "en:milk,zh:牛乳") |};
    {| row_name := utf8 "gluten"; row_type := utf8 "gluten"; row_severity := 3;
       row_aliases := Some (utf8 "gluten,wheat,flour,麸质,小麦,面粉");
       row_languages := Some (utf8 "en:gluten,zh:麸质") |};
    {| row_name := utf8 "shrimp"; row_type := utf8 "shellfish"; row_severity := 5;
       row_aliases := Some (utf8 "shrimp,prawn,crustacean,虾,海鲜");
       row_languages := Some (utf8 "en:shrimp,zh:虾") |};
    {| row_name := utf8 "eggs"; row_type := utf8 "egg"; row_severity := 3;
       row_aliases := Some (utf8 "egg,ovalbumin,ovomucoid,蛋,鸡蛋");
       row_languages := Some (utf8 "en:eggs,zh:鸡蛋") |} ].

(** [INSERT OR IGNORE]: the column [name] is [UNIQUE]. *)
Definition insert_or_ignore (table : list row) (r : row) : list row :=
  if existsb (fun r' => bool_decide (row_name r' = row_name r)) table
  then table
  else table ++ [r].

Definition _populate_base_data (table : list row) : list row :=
  fold_left insert_or_ignore base_allergens table.

Definition _init_database (table : list row) : list row :=
  _populate_base_data table.

(** SQLite's [LOWER] and the comparison of [LIKE] fold the ASCII letters
    only. *)
Definition sql_lower_char (c : char) : char :=
  if (65 <=? c) && (c <=? 90) then c + 32 else c.

Definition sql_lower (s : str) : str := map sql_lower_char s.

(** The comparison of [LIKE] on two texts: [%] stands for any run of
    characters and [_] for any single character; there is no escape
    character. *)
Fixpoint like_match (pattern : str) (s : str) {struct pattern} : bool :=
  match pattern with
  | [] => match s with [] => true | _ :: _ => false end
  | p :: pattern' =>
    if N.eqb p (chr "%") then
      (fix any (s : str) : bool :=
         like_match pattern' s
         || match s with
            | [] => false
            | _ :: s' => any s'
            end) s
    else
      match s with
      | [] => false
      | c :: s' =>
        (N.eqb p (chr "_") || N.eqb (sql_lower_char p) (sql_lower_char c))
        && like_match pattern' s'
      end
  end.

(** SQLite reads both operands of [LIKE] as C strings: each one ends at
    its first NUL character. *)
Fixpoint until_nul (s : str) : str :=
  match s with
  | [] => []
  | c :: s' => if N.eqb c 0 then [] else c :: until_nul s'
  end.

(** [s LIKE pattern]. *)
Definition sql_like (pattern : str) (s : str) : bool :=
  like_match (until_nul pattern) (until_nul s).

(** The exceptions of the query of [search_allergens] that depend on the
    token: the parameter cannot be encoded in UTF-8 when it holds a
    surrogate, and [LIKE] refuses a pattern longer than
    [SQLITE_MAX_LIKE_PATTERN_LENGTH] bytes (50000 unless the library was
    built otherwise) at the first row it is evaluated on. *)
Inductive error := UnicodeEncodeError | OperationalError.

Definition is_surrogate (c : char) : bool := (55296 <=? c) && (c <=? 57343).

Definition utf8_length (s : str) : N :=
  fold_right
    (fun c n => (if c <? 128 then 1 else if c <? 2048 then 2 else if c <? 65536 then 3 else 4) + n)
    0 s.

Definition like_pattern_limit : N := 50000.

Definition query_error (db : list row) (pattern : str) : option error :=
  if existsb is_surrogate pattern then Some UnicodeEncodeError
  else if (like_pattern_limit <? utf8_length pattern) && negb (bool_decide (db = []))
  then Some OperationalError
  else None.

Section AllergenDatabase.
Context `{Unicode}.

Definition row_selected (pattern : str) (r : row) : bool :=
  sql_like pattern (sql_lower (row_name r))
  || match row_aliases r with
     | Some aliases => sql_like pattern (sql_lower aliases)
     | None => false
     end.

Definition allergen_of_row (r : row) : allergen :=
  {| a_name := row_name r;
     a_type := row_type r;
     a_severity := row_severity r;
     a_aliases := match row_aliases r with
                  | None | Some [] => []
                  | Some aliases => split_chr (chr ",") [] aliases
                  end;
     a_languages := match row_languages r with
                    | None | Some [] => None
                    | Some languages => Some languages
                    end |}.

(** The list [search_allergens] returns.  When the query raises there is
    no such list: [search_allergens_outcome] below tells the two cases
    apart. *)
Definition search_allergens (db : list row) (ingredient : str) : list allergen :=
  let ingredient := strip (lower ingredient) in
  let pattern := utf8 "%" ++ ingredient ++ utf8 "%" in
  let rows := List.filter (row_selected pattern) db in
  fold_left (fun allergens r => allergens ++ [allergen_of_row r]) rows [].

(** [search_allergens] with its exceptions: [inl] is the exception raised,
    [inr] the list returned. *)
Definition search_allergens_outcome (db : list row) (ingredient : str)
    : error + list allergen :=
  let pattern := utf8 "%" ++ strip (lower ingredient) ++ utf8 "%" in
  match query_error db pattern with
  | Some e => inl e
  | None => inr (search_allergens db ingredient)
  end.
End AllergenDatabase.

(** ** RiskAssessor *)

Inductive RiskLevel := LOW | MODERATE | HIGH | SEVERE.

#[export] Instance RiskLevel_eq_dec : EqDecision RiskLevel.
Proof. solve_decision. Defined.

(** The order of the data model: LOW < MODERATE < HIGH < SEVERE. *)
Definition rank (l : RiskLevel) : nat :=
  match l with LOW => 0 | MODERATE => 1 | HIGH => 2 | SEVERE => 3 end%nat.

(** The dictionaries appended to [detected_allergens]. *)
Record detected := {
  d_name : str;
  d_type : str;
  d_severity : Z;
  d_matched_ingredient : str
}.

Local Open Scope Z_scope.

(** [RiskAssessor.__init__]: [user_allergens or {}]. *)
Definition RiskAssessor_init (user_allergens : option (gmap str Z)) : gmap str Z :=
  match user_allergens with
  | Some m => m
  | None => ∅
  end.

Definition assess_step (user_allergens : gmap str Z)
    (max_risk : RiskLevel) (a : detected) : RiskLevel :=
  match user_allergens !! d_type a with
  | Some user_severity =>
    let allergen_severity := d_severity a in
    let combined_severity := Z.min (user_severity + allergen_severity) 10 in
    if 8 <=? combined_severity then SEVERE
    else if 6 <=? combined_severity then HIGH
    else if 4 <=? combined_severity then MODERATE
    else max_risk
  | None => max_risk
  end.

Definition assess_risk (user_allergens : gmap str Z)
    (detected_allergens : list detected) : RiskLevel :=
  match detected_allergens with
  | [] => LOW
  | _ => fold_left (assess_step user_allergens) detected_allergens LOW
  end.

Definition severe_warning (name : str) : str :=
  utf8 "⚠️ 严重警告：检测到" ++ name ++ utf8 "，可能导致严重过敏反应".

Definition caution_warning (name : str) : str :=
  utf8 "🔔 警告：检测到" ++ name ++ utf8 "，需谨慎食用".

Definition mild_warning (name : str) : str :=
  utf8 "💡 提醒：检测到" ++ name ++ utf8 "，轻度过敏原".

Definition warn_step (user_allergens : gmap str Z)
    (warnings : list str) (a : detected) : list str :=
  match user_allergens !! d_type a with
  | Some user_severity =>
    if (4 <=? user_severity) && (4 <=? d_severity a)
    then warnings ++ [severe_warning (d_name a)]
    else if (3 <=? user_severity) || (3 <=? d_severity a)
    then warnings ++ [caution_warning (d_name a)]
    else warnings ++ [mild_warning (d_name a)]
  | None => warnings
  end.

Definition generate_warnings (user_allergens : gmap str Z)
    (detected_allergens : list detected) : list str :=
  fold_left (warn_step user_allergens) detected_allergens [].

(** ** AllergenDetector *)

Record DetectionResult := {
  ingredients : list str;
  detected_allergens : list detected;
  risk_level : RiskLevel;
  confidence : float;
  safe : bool;
  warnings : list str
}.

(** [len(...)] as a float; exact below 2^53. *)
Definition float_of_len (n : nat) : float :=
  PrimFloat.of_uint63 (Uint63.of_Z (Z.of_nat n)).

(** [min(a, b)] of Python: [b] only when [b < a]. *)
Definition py_min (a b : float) : float :=
  if PrimFloat.ltb b a then b else a.

Definition _calculate_confidence (detected_allergens : list detected)
    (ingredients : list str) : float :=
  match ingredients with
  | [] => 0.0%float
  | _ =>
    let total_ingredients := length ingredients in
    let matched_ingredients := length detected_allergens in
    let confidence :=
      if (0 <? matched_ingredients)%nat
      then (0.6 + (float_of_len matched_ingredients / float_of_len total_ingredients) * 0.4)%float
      else if (5 <? total_ingredients)%nat then 0.8%float else 0.5%float in
    py_min confidence 1.0%float
  end.

(** The state of a detector: the table behind [allergen_db] and the
    profile held by [risk_assessor]. *)
Record AllergenDetector := {
  allergen_db : list row;
  risk_assessor : gmap str Z
}.

(** [AllergenDetector.__init__]; [table] is what the database file held
    before. *)
Definition AllergenDetector_init (table : list row)
    (user_allergens : option (gmap str Z)) : AllergenDetector :=
  {| allergen_db := _init_database table;
     risk_assessor := RiskAssessor_init user_allergens |}.

Section AllergenDetector.
Context `{Unicode}.

(** The inner loop of [_analyze_ingredients] over the records matching
    one ingredient. *)
Definition detect_step (ingredient : str)
    (detected_allergens : list detected) (a : allergen) : list detected :=
  if negb (existsb (fun d => bool_decide (d_type d = a_type a)) detected_allergens)
  then detected_allergens ++
       [ {| d_name := a_name a; d_type := a_type a; d_severity := a_severity a;
            d_matched_ingredient := ingredient |} ]
  else detected_allergens.

(** The outer loop; the state is [(detected_allergens, found_ingredients)].
    [analyze_step], [_analyze_ingredients] and [scan_text] give what is
    returned; the versions with the exceptions of the queries follow. *)
Definition analyze_step (db : list row)
    (st : list detected * list str) (ingredient : str) : list detected * list str :=
  let '(detected_allergens, found_ingredients) := st in
  let found_ingredients := found_ingredients ++ [ingredient] in
  let matching_allergens := search_allergens db ingredient in
  (fold_left (detect_step ingredient) matching_allergens detected_allergens,
   found_ingredients).

Definition _analyze_ingredients (self : AllergenDetector)
    (ingredients : list str) : DetectionResult :=
  let '(detected_allergens, found_ingredients) :=
    fold_left (analyze_step (allergen_db self)) ingredients ([], []) in
  let risk_level := assess_risk (risk_assessor self) detected_allergens in
  let warnings := generate_warnings (risk_assessor self) detected_allergens in
  let confidence := _calculate_confidence detected_allergens ingredients in
  let safe :=
    bool_decide (risk_level = LOW) && (length detected_allergens =? 0)%nat in
  {| ingredients := found_ingredients;
     detected_allergens := detected_allergens;
     risk_level := risk_level;
     confidence := confidence;
     safe := safe;
     warnings := warnings |}.

Definition scan_text (self : AllergenDetector) (text : option str) : DetectionResult :=
  let ingredients := extract_ingredients text in
  _analyze_ingredients self ingredients.

(** The same three functions with the exceptions of the queries: an
    exception raised for one ingredient ends the loop and the scan. *)
Definition analyze_step_outcome (db : list row)
    (st : error + (list detected * list str)) (ingredient : str)
    : error + (list detected * list str) :=
  match st with
  | inl e => inl e
  | inr (detected_allergens, found_ingredients) =>
    let found_ingredients := found_ingredients ++ [ingredient] in
    match search_allergens_outcome db ingredient with
    | inl e => inl e
    | inr matching_allergens =>
      inr (fold_left (detect_step ingredient) matching_allergens detected_allergens,
           found_ingredients)
    end
  end.

Definition _analyze_ingredients_outcome (self : AllergenDetector)
    (ingredients : list str) : error + DetectionResult :=
  match fold_left (analyze_step_outcome (allergen_db self)) ingredients (inr ([], [])) with
  | inl e => inl e
  | inr (detected_allergens, found_ingredients) =>
    let risk_level := assess_risk (risk_assessor self) detected_allergens in
    let warnings := generate_warnings (risk_assessor self) detected_allergens in
    let confidence := _calculate_confidence detected_allergens ingredients in
    let safe :=
      bool_decide (risk_level = LOW) && (length detected_allergens =? 0)%nat in
    inr {| ingredients := found_ingredients;
           detected_allergens := detected_allergens;
           risk_level := risk_level;
           confidence := confidence;
           safe := safe;
           warnings := warnings |}
  end.

Definition scan_text_outcome (self : AllergenDetector) (text : option str)
    : error + DetectionResult :=
  let ingredients := extract_ingredients text in
  _analyze_ingredients_outcome self ingredients.
End AllergenDetector.

(** The profile of the demonstration in [main]. *)
Definition demo_profile : gmap str Z :=
  {[ utf8 "peanut" := 5; utf8 "shellfish" := 3; utf8 "dairy" := 2 ]}.

Definition demo_text : str :=
  utf8 "Ingredients: Wheat flour, sugar, peanuts, milk powder, salt, shrimp powder".

(** * Vocabulary of the properties

    The predicates and the auxiliary functions in which the properties
    of the next part are stated. *)

(** Some row of [table] bears [name]. *)
Definition has_name (table : list row) (name : str) : bool :=
  existsb (fun r' => bool_decide (row_name r' = name)) table.


(** A text without NUL character. *)
Definition nul_free (s : str) : Prop := Forall (fun c => c ≠ 0%N) s.

(** The pattern of the query for an ingredient and "the query for this
    ingredient raises nothing". *)
Section QueryVocabulary.
Context `{Unicode}.

Definition like_pattern (ingredient : str) : str :=
  utf8 "%" ++ strip (lower ingredient) ++ utf8 "%".

Definition query_ok (db : list row) (ingredient : str) : Prop :=
  query_error db (like_pattern ingredient) = None.
End QueryVocabulary.





(** The loop of [%]: the rest of the pattern is tried at every suffix. *)
Fixpoint like_any (rest : str → bool) (s : str) : bool :=
  rest s || match s with
            | [] => false
            | _ :: s' => like_any rest s'
            end.

(** The tier of a warning, in the words of the design: severe when both
    severities reach 4, otherwise caution when one of them reaches 3,
    otherwise mild. *)
Definition is_warning_for (user_severity : Z) (a : detected) (w : str) : Prop :=
  (4 ≤ user_severity ∧ 4 ≤ d_severity a ∧ w = severe_warning (d_name a))
  ∨ (¬ (4 ≤ user_severity ∧ 4 ≤ d_severity a)
     ∧ (3 ≤ user_severity ∨ 3 ≤ d_severity a)
     ∧ w = caution_warning (d_name a))
  ∨ (user_severity < 3 ∧ d_severity a < 3 ∧ w = mild_warning (d_name a)).

(** The category of [a] is a key of the profile. *)
Definition in_profile (user_allergens : gmap str Z) (a : detected) : bool :=
  bool_decide (is_Some (user_allergens !! d_type a)).

(** The messages one detected allergen adds to the warnings. *)
Definition warnings_of (user_allergens : gmap str Z) (a : detected) : list str :=
  warn_step user_allergens [] a.

(** The level an allergen escalates to, if any: the thresholds 8, 6 and 4
    on the combined severity of a profiled allergen. *)
Definition escalation (user_allergens : gmap str Z) (a : detected) : option RiskLevel :=
  match user_allergens !! d_type a with
  | Some user_severity =>
    let combined_severity := Z.min (user_severity + d_severity a) 10 in
    if 8 <=? combined_severity then Some SEVERE
    else if 6 <=? combined_severity then Some HIGH
    else if 4 <=? combined_severity then Some MODERATE
    else None
  | None => None
  end.

(** A pattern item that may match the empty text. *)
Definition nullable_item (it : item) : bool :=
  match it with
  | One _ => false
  | Opt _ | Star _ => true
  end.

(** The characters on which [extract_ingredients] splits. *)
Definition sep_chars : list char := utf8 ",，;；、" ++ [10%N].

(** No opening parenthesis of [s] is followed, anywhere later, by a
    closing one. *)
Fixpoint no_parenthetical (s : str) : Prop :=
  match s with
  | [] => True
  | c :: s' => (c = chr "(" → chr ")" ∉ s') ∧ no_parenthetical s'
  end.

(** The entry made of a record [a] found for [ingredient]. *)
Definition entry_of (ingredient : str) (a : allergen) : detected :=
  {| d_name := a_name a; d_type := a_type a; d_severity := a_severity a;
     d_matched_ingredient := ingredient |}.

(** The entries the seeded store gives for the tokens "peanuts" and
    "milk". *)
Definition peanuts_entry : detected :=
  {| d_name := utf8 "peanuts"; d_type := utf8 "peanut"; d_severity := 5;
     d_matched_ingredient := utf8 "peanuts" |}.

Definition milk_entry : detected :=
  {| d_name := utf8 "milk"; d_type := utf8 "dairy"; d_severity := 3;
     d_matched_ingredient := utf8 "milk" |}.

Section Vocabulary.
Context `{Unicode}.

(** The first three steps of [_clean_ingredient]: lowering and stripping,
    then the removal of the numbers, then of the parentheticals. *)
Definition without_digits (ingredient : str) : str :=
  re_sub false (plus Digit ++ [Opt (Lit (chr "%"))]) [] (strip (lower ingredient)).

Definition without_parentheticals (ingredient : str) : str :=
  re_sub false [One (Lit (chr "(")); Star (NoneOf (utf8 ")")); One (Lit (chr ")"))]
         [] (without_digits ingredient).

(** What [extract_ingredients] keeps of a candidate. *)
Definition kept (ingredient : str) : bool :=
  negb (bool_decide (_clean_ingredient ingredient = []))
  && (1 <? length (_clean_ingredient ingredient))%nat.

(** The list built by the two loops of [_analyze_ingredients]. *)
Definition detect (db : list row) (ingredients : list str) : list detected :=
  (fold_left (analyze_step db) ingredients ([], [])).1.

(** [d] comes from the first record of its category, in the order in
    which the loops meet the records: its token stands at some index [i]
    of [tokens], the record is the first of its category among the
    records found for that token, and no token before [i] finds a record
    of that category. *)
Definition first_match (db : list row) (tokens : list str) (d : detected) : Prop :=
  ∃ (i : nat) (a : allergen) (before after : list allergen),
    tokens !! i = Some (d_matched_ingredient d)
    ∧ search_allergens db (d_matched_ingredient d) = before ++ a :: after
    ∧ d = entry_of (d_matched_ingredient d) a
    ∧ (∀ a', a' ∈ before → a_type a' ≠ d_type d)
    ∧ (∀ j token' a', (j < i)%nat → tokens !! j = Some token' →
         a' ∈ search_allergens db token' → a_type a' ≠ d_type d).

End Vocabulary.

(** * Properties *)

(** ** Loops that append to an accumulator *)

Lemma fold_left_append_if {A B} (keep : A → bool) (f : A → B) (l : list A) (acc : list B) :
  fold_left (fun acc x => if keep x then acc ++ [f x] else acc) l acc
  = acc ++ map f (List.filter keep l).
Proof.
  revert acc. induction l as [|x l IH]; intros acc; simpl.
  - by rewrite app_nil_r.
  - rewrite IH. destruct (keep x); simpl; [by rewrite <- app_assoc | done].
Qed.

Lemma fold_left_append_each {A B} (f : A → list B) (l : list A) (acc : list B) :
  fold_left (fun acc x => acc ++ f x) l acc = acc ++ concat (map f l).
Proof.
  revert acc. induction l as [|x l IH]; intros acc; simpl.
  - by rewrite app_nil_r.
  - by rewrite IH, <- app_assoc.
Qed.

(** ** IngredientProcessor *)

Section IngredientProcessorProps.
Context `{Unicode}.

Lemma extract_ingredients_eq (c : char) (text : str) :
  extract_ingredients (Some (c :: text))
  = map _clean_ingredient
        (List.filter kept (re_split false separators (_clean_text (c :: text)))).
Proof.
  unfold extract_ingredients.
  exact (fold_left_append_if kept _clean_ingredient _ []).
Qed.



End IngredientProcessorProps.

(** ** AllergenDatabase *)

Lemma fold_left_append_one {A B} (f : A → B) (l : list A) (acc : list B) :
  fold_left (fun acc x => acc ++ [f x]) l acc = acc ++ map f l.
Proof.
  revert acc. induction l as [|x l IH]; intros acc; simpl.
  - by rewrite app_nil_r.
  - by rewrite IH, <- app_assoc.
Qed.

(** *** Seeding *)

Lemma has_name_app (table rows : list row) (name : str) :
  has_name (table ++ rows) name = has_name table name || has_name rows name.
Proof. apply existsb_app. Qed.

Lemma insert_or_ignore_keeps (table : list row) (r : row) (name : str) :
  has_name table name = true → has_name (insert_or_ignore table r) name = true.
Proof.
  intros Hname. unfold insert_or_ignore.
  destruct (existsb _ table); [done|].
  by rewrite has_name_app, Hname.
Qed.

Lemma insert_or_ignore_self (table : list row) (r : row) :
  has_name (insert_or_ignore table r) (row_name r) = true.
Proof.
  unfold insert_or_ignore.
  destruct (existsb _ table) eqn:E; [exact E|].
  rewrite has_name_app. simpl.
  rewrite bool_decide_eq_true_2 by done. by rewrite orb_true_r.
Qed.

Lemma populate_keeps (rows table : list row) (name : str) :
  has_name table name = true →
  has_name (fold_left insert_or_ignore rows table) name = true.
Proof.
  revert table. induction rows as [|r rows IH]; intros table Hname; [done|].
  simpl. by apply IH, insert_or_ignore_keeps.
Qed.

Lemma populate_all (rows table : list row) (r : row) :
  r ∈ rows → has_name (fold_left insert_or_ignore rows table) (row_name r) = true.
Proof.
  revert table. induction rows as [|r' rows IH]; intros table Hin.
  - by apply elem_of_nil in Hin.
  - simpl. apply elem_of_cons in Hin as [->|Hin]; [|by apply IH].
    apply populate_keeps, insert_or_ignore_self.
Qed.

Lemma populate_noop (rows table : list row) :
  (∀ r, r ∈ rows → has_name table (row_name r) = true) →
  fold_left insert_or_ignore rows table = table.
Proof.
  revert table. induction rows as [|r rows IH]; intros table Hall; [done|].
  simpl.
  assert (insert_or_ignore table r = table) as ->.
  { unfold insert_or_ignore. fold (has_name table (row_name r)).
    by rewrite Hall by apply list_elem_of_here. }
  apply IH. intros r' Hin. apply Hall. by apply list_elem_of_further.
Qed.

(** X3: seeding a store that was seeded before leaves it as it is. *)
Theorem _init_database_idempotent (table : list row) :
  _init_database (_init_database table) = _init_database table.
Proof.
  unfold _init_database, _populate_base_data.
  apply populate_noop. intros r Hin. by apply populate_all.
Qed.

(** *** Search *)

Lemma like_match_percent (pattern s : str) :
  like_match (chr "%" :: pattern) s = like_any (like_match pattern) s.
Proof. induction s as [|c s IH]; simpl; [done|]. by rewrite <- IH. Qed.


Lemma like_any_true (rest : str → bool) (s : str) :
  like_any rest s = true ↔ ∃ before after, s = before ++ after ∧ rest after = true.
Proof.
  induction s as [|c s IH]; simpl.
  - rewrite orb_false_r. split.
    + intros Hrest. by exists [], [].
    + intros (before & after & Heq & Hrest).
      symmetry in Heq. apply app_eq_nil in Heq as [_ ->]. done.
  - rewrite orb_true_iff, IH. split.
    + intros [Hrest|(before & after & -> & Hrest)].
      * by exists [], (c :: s).
      * by exists (c :: before), after.
    + intros ([|c' before] & after & Heq & Hrest); simpl in Heq.
      * left. by subst after.
      * right. injection Heq as -> ->. eauto.
Qed.



Lemma until_nul_nul_free (s : str) : nul_free s → until_nul s = s.
Proof.
  induction 1 as [|c s Hc _ IH]; simpl; [done|].
  destruct (N.eqb_spec c 0); [done|]. by rewrite IH.
Qed.

Lemma nul_free_pattern (token : str) :
  nul_free token → nul_free (utf8 "%" ++ token ++ utf8 "%").
Proof.
  intros Htoken. change (utf8 "%" ++ token ++ utf8 "%") with (chr "%" :: (token ++ [chr "%"])).
  constructor; [by intros [=]|]. apply Forall_app. split; [done|].
  constructor; [by intros [=]|constructor].
Qed.

(** [field LIKE '%token%'] for a token without NUL: the comparison is made
    with the field read up to its first NUL. *)
Lemma sql_like_pattern (token field : str) :
  nul_free token →
  sql_like (utf8 "%" ++ token ++ utf8 "%") field
  = like_match (utf8 "%" ++ token ++ utf8 "%") (until_nul field).
Proof.
  intros Htoken. unfold sql_like.
  by rewrite (until_nul_nul_free _ (nul_free_pattern token Htoken)).
Qed.

Section AllergenDatabaseProps.
Context `{Unicode}.

Lemma search_allergens_eq (db : list row) (ingredient : str) :
  search_allergens db ingredient
  = map allergen_of_row
        (List.filter
           (row_selected (utf8 "%" ++ strip (lower ingredient) ++ utf8 "%")) db).
Proof.
  unfold search_allergens. cbv zeta.
  exact (fold_left_append_one allergen_of_row _ []).
Qed.

Lemma search_allergens_outcome_ok (db : list row) (ingredient : str) :
  query_ok db ingredient →
  search_allergens_outcome db ingredient = inr (search_allergens db ingredient).
Proof.
  unfold query_ok, like_pattern, search_allergens_outcome. cbv zeta. by intros ->.
Qed.



End AllergenDatabaseProps.

(** ** RiskAssessor *)

Lemma warn_step_app (user_allergens : gmap str Z) (ws : list str) (a : detected) :
  warn_step user_allergens ws a = ws ++ warnings_of user_allergens a.
Proof.
  unfold warnings_of, warn_step.
  destruct (user_allergens !! d_type a) as [u|]; [|by rewrite app_nil_r].
  by repeat case_match.
Qed.

Lemma generate_warnings_concat (user_allergens : gmap str Z) (ds : list detected) :
  generate_warnings user_allergens ds = concat (map (warnings_of user_allergens) ds).
Proof.
  unfold generate_warnings.
  etrans; [|exact (fold_left_append_each (warnings_of user_allergens) ds [])].
  generalize (@nil str). induction ds as [|a ds IH]; intros ws; simpl; [done|].
  by rewrite warn_step_app, IH.
Qed.

Lemma warnings_of_profiled (user_allergens : gmap str Z) (a : detected) (u : Z) :
  user_allergens !! d_type a = Some u →
  ∃ w, warnings_of user_allergens a = [w] ∧ is_warning_for u a w.
Proof.
  intros Hu. unfold warnings_of, warn_step, is_warning_for. rewrite Hu. simpl.
  destruct (4 <=? u) eqn:E4u, (4 <=? d_severity a) eqn:E4s; simpl;
    try (destruct (3 <=? u) eqn:E3u; simpl);
    try (destruct (3 <=? d_severity a) eqn:E3s; simpl);
    eexists; (split; [reflexivity|]);
    rewrite ?Z.leb_le, ?Z.leb_gt in *; intuition lia.
Qed.

Lemma warnings_of_unprofiled (user_allergens : gmap str Z) (a : detected) :
  user_allergens !! d_type a = None → warnings_of user_allergens a = [].
Proof. intros Hu. unfold warnings_of, warn_step. by rewrite Hu. Qed.

(** C7: the warnings are, in order, one message for each detected
    allergen whose category is in the profile, of the tier fixed by the
    two severities; the other detected allergens give no message, so there
    are as many warnings as profiled detected allergens. *)
Theorem generate_warnings_one_per_profiled
    (user_allergens : gmap str Z) (ds : list detected) :
  Forall2
    (fun a w => ∃ u, user_allergens !! d_type a = Some u ∧ is_warning_for u a w)
    (List.filter (in_profile user_allergens) ds)
    (generate_warnings user_allergens ds)
  ∧ length (generate_warnings user_allergens ds)
    = length (List.filter (in_profile user_allergens) ds).
Proof.
  rewrite generate_warnings_concat.
  assert (Forall2
    (fun a w => ∃ u, user_allergens !! d_type a = Some u ∧ is_warning_for u a w)
    (List.filter (in_profile user_allergens) ds)
    (concat (map (warnings_of user_allergens) ds))) as HF.
  { induction ds as [|a ds IH]; simpl; [constructor|].
    unfold in_profile at 1.
    destruct (user_allergens !! d_type a) as [u|] eqn:Hu.
    - rewrite bool_decide_eq_true_2 by eauto.
      destruct (warnings_of_profiled _ _ _ Hu) as (w & -> & Hw).
      simpl. constructor; eauto.
    - rewrite bool_decide_eq_false_2 by (intros [? ?]; congruence).
      by rewrite warnings_of_unprofiled. }
  split; [exact HF|]. symmetry. exact (Forall2_length _ _ _ HF).
Qed.

Lemma assess_step_escalation (user_allergens : gmap str Z) (l : RiskLevel) (a : detected) :
  assess_step user_allergens l a = default l (escalation user_allergens a).
Proof.
  unfold assess_step, escalation.
  destruct (user_allergens !! d_type a) as [u|]; [|done].
  cbv zeta. by repeat case_match.
Qed.

Lemma assess_fold_last (user_allergens : gmap str Z) (ds : list detected) (l : RiskLevel) :
  fold_left (assess_step user_allergens) ds l
  = default l (last (omap (escalation user_allergens) ds)).
Proof.
  induction ds as [|a ds IH] using rev_ind; [done|].
  rewrite fold_left_app, omap_app. simpl.
  rewrite assess_step_escalation, IH.
  destruct (escalation user_allergens a) as [l'|]; simpl.
  - by rewrite last_snoc.
  - by rewrite app_nil_r.
Qed.

(** X1: what [assess_risk] computes: the level of the last detected allergen
    that escalates, LOW when none does. *)
Theorem assess_risk_last (user_allergens : gmap str Z) (ds : list detected) :
  assess_risk user_allergens ds
  = default LOW (last (omap (escalation user_allergens) ds)).
Proof.
  unfold assess_risk. destruct ds as [|d ds]; [done|].
  apply assess_fold_last.
Qed.

(** ** AllergenDetector *)

Section AllergenDetectorProps.
Context `{Unicode}.

Lemma _analyze_ingredients_eq (self : AllergenDetector) (ingredients0 : list str) :
  let ds := detect (allergen_db self) ingredients0 in
  _analyze_ingredients self ingredients0
  = {| ingredients := (fold_left (analyze_step (allergen_db self)) ingredients0 ([], [])).2;
       detected_allergens := ds;
       risk_level := assess_risk (risk_assessor self) ds;
       confidence := _calculate_confidence ds ingredients0;
       safe := bool_decide (assess_risk (risk_assessor self) ds = LOW)
               && (length ds =? 0)%nat;
       warnings := generate_warnings (risk_assessor self) ds |}.
Proof.
  unfold _analyze_ingredients, detect.
  by destruct (fold_left _ _ _) as [ds found].
Qed.

Lemma analyze_found (db : list row) (tokens : list str) (st : list detected * list str) :
  (fold_left (analyze_step db) tokens st).2 = st.2 ++ tokens.
Proof.
  revert st. induction tokens as [|token tokens IH]; intros [ds found]; simpl.
  - by rewrite app_nil_r.
  - rewrite IH. simpl. by rewrite <- app_assoc.
Qed.

(** [found_ingredients] is a copy of the tokens. *)
Lemma _analyze_ingredients_found (self : AllergenDetector) (tokens : list str) :
  ingredients (_analyze_ingredients self tokens) = tokens.
Proof. rewrite _analyze_ingredients_eq. simpl. by rewrite analyze_found. Qed.

Lemma _analyze_ingredients_safe (self : AllergenDetector) (tokens : list str) :
  let r := _analyze_ingredients self tokens in
  safe r = bool_decide (risk_level r = LOW ∧ detected_allergens r = []).
Proof.
  rewrite _analyze_ingredients_eq.
  cbn [safe risk_level detected_allergens].
  destruct (detect _ _) as [|d ds].
  - change (length [] =? 0)%nat with true. rewrite andb_true_r.
    apply bool_decide_ext. naive_solver.
  - change (length (d :: ds) =? 0)%nat with false. rewrite andb_false_r.
    symmetry. apply bool_decide_eq_false. intros [_ ?]. discriminate.
Qed.

(** C6: [safe] is exactly "the risk level is LOW and nothing was
    detected". *)
Theorem scan_text_safe (self : AllergenDetector) (text : option str) :
  let r := scan_text self text in
  safe r = bool_decide (risk_level r = LOW ∧ detected_allergens r = []).
Proof. unfold scan_text. apply _analyze_ingredients_safe. Qed.

(** *** Deduplication by category *)

Lemma has_type_spec (ds : list detected) (t : str) :
  existsb (fun d => bool_decide (d_type d = t)) ds = true ↔ t ∈ map d_type ds.
Proof.
  rewrite existsb_exists, list_elem_of_In, in_map_iff.
  split; intros (d & H1 & H2); exists d.
  - by apply bool_decide_eq_true in H2.
  - split; [done|]. by apply bool_decide_eq_true.
Qed.

Lemma detect_step_cases (ingredient : str) (ds : list detected) (a : allergen) :
  (a_type a ∈ map d_type ds ∧ detect_step ingredient ds a = ds)
  ∨ ((a_type a ∉ map d_type ds)
     ∧ detect_step ingredient ds a = ds ++ [entry_of ingredient a]).
Proof.
  unfold detect_step.
  destruct (existsb _ ds) eqn:E; simpl.
  - left. split; [by apply has_type_spec | done].
  - right. split; [|done]. rewrite <- has_type_spec. by rewrite E.
Qed.

(** The inner loop, over the records [found] for one token. *)
Lemma detect_step_fold (ingredient : str) (found : list allergen) (ds : list detected) :
  ∃ new,
    fold_left (detect_step ingredient) found ds = ds ++ new
    ∧ (NoDup (map d_type ds) → NoDup (map d_type (ds ++ new)))
    ∧ Forall (fun d => ∃ a before after,
                found = before ++ a :: after
                ∧ d = entry_of ingredient a
                ∧ (∀ a', a' ∈ before → a_type a' ≠ a_type a)
                ∧ a_type a ∉ map d_type ds) new
    ∧ (∀ a, a ∈ found → a_type a ∈ map d_type (ds ++ new)).
Proof.
  induction found as [|a found IH] using rev_ind.
  - exists []. simpl. rewrite app_nil_r. repeat split; auto.
    intros a Ha. by apply elem_of_nil in Ha.
  - destruct IH as (new & Hfold & Hnodup & Hnew & Hall).
    rewrite fold_left_app. simpl. rewrite Hfold.
    assert (Forall (fun d => ∃ a0 before after,
                found ++ [a] = before ++ a0 :: after
                ∧ d = entry_of ingredient a0
                ∧ (∀ a', a' ∈ before → a_type a' ≠ a_type a0)
                ∧ a_type a0 ∉ map d_type ds) new) as Hnew'.
    { eapply Forall_impl; [exact Hnew|].
      intros d (a0 & before & after & -> & Hd & Hbefore & Hfresh).
      exists a0, before, (after ++ [a]).
      rewrite <- app_assoc. simpl. auto. }
    destruct (detect_step_cases ingredient (ds ++ new) a) as [[Hin ->]|[Hout ->]].
    + exists new. repeat split; auto.
      intros a' [Ha'| ->%list_elem_of_singleton]%elem_of_app; auto.
    + exists (new ++ [entry_of ingredient a]).
      rewrite app_assoc. repeat split.
      * intros Hds. rewrite map_app. simpl.
        apply NoDup_app. split; [auto|]. split; [|apply NoDup_singleton].
        intros t Ht ->%list_elem_of_singleton. done.
      * apply Forall_app. split; [exact Hnew'|].
        constructor; [|constructor].
        exists a, found, []. repeat split; auto.
        -- intros a' Ha' Heq. apply Hout. rewrite <- Heq. auto.
        -- intros Hin. apply Hout. rewrite map_app. apply elem_of_app. by left.
      * intros a' [Ha'| ->%list_elem_of_singleton]%elem_of_app.
        -- rewrite map_app. apply elem_of_app. left. auto.
        -- rewrite map_app. apply elem_of_app. right. simpl. apply list_elem_of_singleton.
           done.
Qed.

Lemma detect_snoc (db : list row) (tokens : list str) (token : str) :
  detect db (tokens ++ [token])
  = fold_left (detect_step token) (search_allergens db token) (detect db tokens).
Proof.
  unfold detect. rewrite fold_left_app. simpl.
  by destruct (fold_left (analyze_step db) tokens ([], [])) as [ds found].
Qed.

Lemma first_match_snoc (db : list row) (tokens : list str) (token : str) (d : detected) :
  first_match db tokens d → first_match db (tokens ++ [token]) d.
Proof.
  intros (i & a & before & after & Hi & Hsearch & Hd & Hbefore & Hearlier).
  exists i, a, before, after. repeat split; auto.
  - by apply lookup_app_l_Some.
  - intros j token' a' Hj Hlookup.
    apply (Hearlier j token' a' Hj).
    apply lookup_lt_Some in Hi.
    by rewrite lookup_app_l in Hlookup by lia.
Qed.

(** The invariant of the outer loop. *)
Lemma detect_invariant (db : list row) (tokens : list str) :
  NoDup (map d_type (detect db tokens))
  ∧ Forall (first_match db tokens) (detect db tokens)
  ∧ (∀ token a, token ∈ tokens → a ∈ search_allergens db token →
       a_type a ∈ map d_type (detect db tokens)).
Proof.
  induction tokens as [|token tokens IH] using rev_ind.
  - repeat split; [constructor|constructor|].
    intros token a Hin. by apply elem_of_nil in Hin.
  - destruct IH as (Hnodup & Hfirst & Hall).
    rewrite detect_snoc.
    destruct (detect_step_fold token (search_allergens db token) (detect db tokens))
      as (new & -> & Hnodup' & Hnew & Hall').
    repeat split; [auto| |].
    + apply Forall_app. split.
      * eapply Forall_impl; [exact Hfirst|]. intros d. apply first_match_snoc.
      * eapply Forall_impl; [exact Hnew|].
        intros d (a & before & after & Hsearch & -> & Hbefore & Hfresh).
        exists (length tokens), a, before, after. simpl. repeat split; auto.
        -- by rewrite list_lookup_middle.
        -- intros j token' a' Hj Hlookup Ha' Heq.
           rewrite lookup_app_l in Hlookup by done.
           apply Hfresh. rewrite <- Heq.
           apply (Hall token' a'); [|done].
           apply list_elem_of_lookup. eauto.
    + intros token' a [Hin| ->%list_elem_of_singleton]%elem_of_app Ha.
      * rewrite map_app. apply elem_of_app. left. eauto.
      * auto.
Qed.

(** C8: the detected list holds at most one entry per category; each
    entry is made from the first record of its category met while the
    tokens are processed in extraction order, and records the token
    that found it; every category found for some token has its entry. *)
Theorem scan_text_first_match_wins (self : AllergenDetector) (text : option str) :
  let r := scan_text self text in
  let tokens := extract_ingredients text in
  NoDup (map d_type (detected_allergens r))
  ∧ Forall (first_match (allergen_db self) tokens) (detected_allergens r)
  ∧ (∀ token a, token ∈ tokens → a ∈ search_allergens (allergen_db self) token →
       a_type a ∈ map d_type (detected_allergens r)).
Proof.
  unfold scan_text. rewrite _analyze_ingredients_eq.
  cbn [detected_allergens]. apply detect_invariant.
Qed.
End AllergenDetectorProps.

(** ** Confidence *)

Section ConfidenceProps.
Context `{Unicode}.

Lemma scan_text_fields (self : AllergenDetector) (text : option str) :
  let tokens := extract_ingredients text in
  let ds := detect (allergen_db self) tokens in
  detected_allergens (scan_text self text) = ds
  ∧ risk_level (scan_text self text) = assess_risk (risk_assessor self) ds
  ∧ warnings (scan_text self text) = generate_warnings (risk_assessor self) ds
  ∧ confidence (scan_text self text) = _calculate_confidence ds tokens.
Proof. unfold scan_text. by rewrite _analyze_ingredients_eq. Qed.

(** C4, as the code has it: with a detection the confidence is
    0.6 + (detected / tokens) * 0.4 capped at 1.0; without one it is 0.8
    for more than five tokens and 0.5 for one to five tokens; with no
    token at all (in particular for an empty or null text) nothing is
    detected and the confidence is 0.0. *)
Theorem scan_text_confidence (self : AllergenDetector) (text : option str) :
  let r := scan_text self text in
  let d := length (detected_allergens r) in
  let t := length (extract_ingredients text) in
  ((0 < d)%nat →
     confidence r = py_min (0.6 + (float_of_len d / float_of_len t) * 0.4) 1.0)
  ∧ (d = 0%nat → (5 < t)%nat → confidence r = 0.8%float)
  ∧ (d = 0%nat → (1 ≤ t ≤ 5)%nat → confidence r = 0.5%float)
  ∧ (t = 0%nat → d = 0%nat ∧ confidence r = 0.0%float)
  ∧ (text = None ∨ text = Some [] → t = 0%nat).
Proof.
  destruct (scan_text_fields self text) as (Hds & _ & _ & Hconf).
  cbv zeta. rewrite Hconf, Hds. clear Hconf Hds.
  destruct (extract_ingredients text) as [|token tokens] eqn:Etokens.
  - change (detect (allergen_db self) []) with (@nil detected). simpl.
    repeat split; (lia || done).
  - set (ds := detect _ _). set (tks := token :: tokens).
    assert (_calculate_confidence ds tks
            = py_min (if (0 <? length ds)%nat
                      then (0.6 + (float_of_len (length ds) / float_of_len (length tks)) * 0.4)%float
                      else if (5 <? length tks)%nat then 0.8%float else 0.5%float)
                     1.0%float) as -> by reflexivity.
    split; [|split; [|split; [|split]]].
    + intros Hd. apply Nat.ltb_lt in Hd. by rewrite Hd.
    + intros -> Ht. apply Nat.ltb_lt in Ht. by rewrite Ht.
    + intros -> [_ Ht]. apply Nat.ltb_ge in Ht. by rewrite Ht.
    + intros Ht. discriminate Ht.
    + intros [->| ->]; discriminate Etokens.
Qed.
End ConfidenceProps.

(** ** Scans without a profile *)

Section UnprofiledProps.
Context `{Unicode}.

Lemma assess_risk_empty_profile (ds : list detected) : assess_risk ∅ ds = LOW.
Proof.
  unfold assess_risk. destruct ds as [|d ds]; [done|].
  generalize (d :: ds). clear. intros ds.
  induction ds as [|d ds IH]; simpl; [done|].
  unfold assess_step at 2. by rewrite lookup_empty.
Qed.

Lemma generate_warnings_empty_profile (ds : list detected) :
  generate_warnings ∅ ds = [].
Proof.
  rewrite generate_warnings_concat.
  induction ds as [|d ds IH]; simpl; [done|].
  by rewrite warnings_of_unprofiled by apply lookup_empty.
Qed.

(** C10: a scan made with an empty or absent profile reports LOW and
    no warning, and still is not safe as soon as an allergen is
    detected. *)
Theorem scan_text_unprofiled (table : list row) (user_allergens : option (gmap str Z))
    (text : option str) :
  user_allergens = None ∨ user_allergens = Some ∅ →
  let r := scan_text (AllergenDetector_init table user_allergens) text in
  risk_level r = LOW
  ∧ warnings r = []
  ∧ (detected_allergens r ≠ [] → safe r = false).
Proof.
  intros Hprofile r.
  assert (risk_assessor (AllergenDetector_init table user_allergens) = ∅) as Hempty
    by (by destruct Hprofile as [->| ->]).
  destruct (scan_text_fields (AllergenDetector_init table user_allergens) text)
    as (Hds & Hrisk & Hwarn & _).
  fold r in Hds, Hrisk, Hwarn. rewrite Hempty in Hrisk, Hwarn.
  rewrite assess_risk_empty_profile in Hrisk.
  rewrite generate_warnings_empty_profile in Hwarn.
  repeat split; [done|done|].
  intros Hdetected. subst r. unfold scan_text. rewrite _analyze_ingredients_safe.
  apply bool_decide_eq_false. intros [_ ?]. done.
Qed.
End UnprofiledProps.

(** ** The pattern matcher *)

Lemma Forall_sublist {A} (P : A → Prop) (l k : list A) :
  l `sublist_of` k → Forall P k → Forall P l.
Proof.
  induction 1 as [|x l k _ IH|x l k _ IH]; intros HP; [done| |].
  - apply Forall_cons in HP as [Hx HP]. constructor; auto.
  - apply Forall_cons in HP as [_ HP]. auto.
Qed.

Lemma elem_of_sublist {A} (x : A) (l k : list A) :
  l `sublist_of` k → x ∈ l → x ∈ k.
Proof.
  induction 1 as [|y l k _ IH|y l k _ IH]; [done| |].
  - intros [->|Hin]%elem_of_cons; [apply list_elem_of_here|].
    by apply list_elem_of_further, IH.
  - intros Hin. by apply list_elem_of_further, IH.
Qed.

Section ReProps.
Context `{Unicode}.
Variable icase : bool.

Lemma match_here_star (a : atom) (r : regex) (s : str) :
  match_here icase (Star a :: r) s
  = match s with
    | c :: s' =>
      if atom_match icase a c
      then match match_here icase (Star a :: r) s' with
           | Some rest => Some rest
           | None => match_here icase r s
           end
      else match_here icase r s
    | [] => match_here icase r s
    end.
Proof. by destruct s. Qed.

(** What is left after a match is an end of the text. *)
Lemma match_here_suffix (r : regex) (s rest : str) :
  match_here icase r s = Some rest → rest `suffix_of` s.
Proof.
  revert s rest. induction r as [|[a|a|a] r IH]; intros s rest.
  - simpl. by intros [= ->].
  - simpl. destruct s as [|c s]; [done|].
    destruct (atom_match icase a c); [|done].
    intros Hm. by apply suffix_cons_r, IH.
  - simpl. destruct s as [|c s]; [apply IH|].
    destruct (atom_match icase a c); [|apply IH].
    destruct (match_here icase r s) as [rest'|] eqn:E; [|apply IH].
    intros [= <-]. by apply suffix_cons_r, IH.
  - revert rest. induction s as [|c s IHs]; intros rest; rewrite match_here_star.
    + apply IH.
    + destruct (atom_match icase a c); [|apply IH].
      destruct (match_here icase (Star a :: r) s) as [rest'|] eqn:E; [|apply IH].
      intros [= <-]. by apply suffix_cons_r, IHs.
Qed.

(** A pattern made of optional and starred items matches everywhere. *)
Lemma match_here_nullable (r : regex) (s : str) :
  forallb nullable_item r = true → is_Some (match_here icase r s).
Proof.
  revert s. induction r as [|[a|a|a] r IH]; intros s Hr; simpl in Hr.
  - by eexists.
  - done.
  - simpl. destruct s as [|c s]; [by apply IH|].
    destruct (atom_match icase a c); [|by apply IH].
    destruct (match_here icase r s); [by eexists|by apply IH].
  - induction s as [|c s IHs]; rewrite match_here_star; [by apply IH|].
    destruct (atom_match icase a c); [|by apply IH].
    destruct (match_here icase (Star a :: r) s); [by eexists|by apply IH].
Qed.

Lemma match_here_one_Some (a : atom) (r : regex) (s rest : str) :
  match_here icase (One a :: r) s = Some rest →
  ∃ c s', s = c :: s' ∧ atom_match icase a c = true ∧ rest `suffix_of` s'.
Proof.
  simpl. destruct s as [|c s]; [done|].
  destruct (atom_match icase a c) eqn:E; [|done].
  intros Hm%match_here_suffix. eauto.
Qed.

Lemma match_here_one_None (a : atom) (r : regex) (c : char) (s : str) :
  forallb nullable_item r = true →
  match_here icase (One a :: r) (c :: s) = None → atom_match icase a c = false.
Proof.
  intros Hr. simpl. destruct (atom_match icase a c); [|done].
  intros Hm. destruct (match_here_nullable r s Hr) as [rest Hrest]. congruence.
Qed.

(** With an empty replacement [re.sub] only deletes. *)
Lemma sub_from_sublist (r : regex) (k : nat) (s : str) :
  sub_from icase r [] k s `sublist_of` s.
Proof.
  revert k. induction s as [|c s IH]; intros k; cbn [sub_from].
  - by destruct (match_here icase r []).
  - destruct k as [|k]; [|by apply sublist_cons].
    destruct (match_here icase r (c :: s)) as [rest|]; [|by apply sublist_skip].
    destruct (length (c :: s) - length rest)%nat; cbn [app].
    + by apply sublist_skip.
    + by apply sublist_cons.
Qed.

(** When the pattern is one class followed by optional items, [re.sub]
    with an empty replacement leaves no character of the class. *)
Lemma sub_from_deletes (a : atom) (r : regex) (k : nat) (s : str) :
  forallb nullable_item r = true →
  Forall (fun c => atom_match icase a c = false) (sub_from icase (One a :: r) [] k s).
Proof.
  intros Hr. revert k. induction s as [|c s IH]; intros k.
  - constructor.
  - cbn [sub_from]. destruct k as [|k]; [|apply IH].
    destruct (match_here icase (One a :: r) (c :: s)) as [rest|] eqn:E.
    + apply match_here_one_Some in E as (c' & s' & [= <- <-] & _ & Hsuffix).
      apply suffix_length in Hsuffix.
      destruct (length (c :: s) - length rest)%nat eqn:En; simpl in En; [lia|].
      apply IH.
    + constructor; [|apply IH]. by apply (match_here_one_None a r c s).
Qed.

(** Under the same condition the pieces of [re.split] hold no character
    of the class. *)
Lemma split_from_pieces (a : atom) (r : regex) (k : nat) (cur s : str) :
  forallb nullable_item r = true →
  Forall (fun c => atom_match icase a c = false) cur →
  Forall (Forall (fun c => atom_match icase a c = false))
         (split_from icase (One a :: r) k cur s).
Proof.
  intros Hr. revert k cur. induction s as [|c s IH]; intros k cur Hcur.
  - simpl. by constructor.
  - cbn [split_from]. destruct k as [|k]; [|by apply IH].
    destruct (match_here icase (One a :: r) (c :: s)) as [rest|] eqn:E.
    + apply match_here_one_Some in E as (c' & s' & [= <- <-] & _ & Hsuffix).
      apply suffix_length in Hsuffix.
      destruct (length (c :: s) - length rest)%nat eqn:En; simpl in En; [lia|].
      constructor; [done|]. by apply IH.
    + apply IH. apply Forall_app. split; [done|].
      constructor; [|done]. by apply (match_here_one_None a r c s).
Qed.
End ReProps.

(** ** What the tokens are made of *)

Lemma no_parenthetical_sublist (l k : str) :
  l `sublist_of` k → no_parenthetical k → no_parenthetical l.
Proof.
  induction 1 as [|x l k Hsub IH|x l k Hsub IH]; simpl; [done| |].
  - intros [Hx Hk]. split; [|auto].
    intros Hopen Hin. apply (Hx Hopen). by apply (elem_of_sublist _ l k).
  - intros [_ Hk]. auto.
Qed.

Lemma no_parenthetical_spec (s before middle after : str) :
  no_parenthetical s → s ≠ before ++ chr "(" :: middle ++ chr ")" :: after.
Proof.
  revert s. induction before as [|b before IH]; intros s Hs ->; simpl in Hs.
  - destruct Hs as [Hopen _]. apply Hopen; [done|].
    apply elem_of_app. right. apply list_elem_of_here.
  - destruct Hs as [_ Hs]. by apply (IH _ Hs).
Qed.

Section TokenProps.
Context `{Unicode}.

Lemma lstrip_suffix (s : str) : lstrip s `suffix_of` s.
Proof.
  induction s as [|c s IH]; simpl; [done|].
  destruct (isspace c); [by apply suffix_cons_r | done].
Qed.

Lemma strip_sublist (s : str) : strip s `sublist_of` s.
Proof.
  unfold strip, rstrip.
  destruct (lstrip_suffix s) as [k1 Hk1].
  destruct (lstrip_suffix (rev (lstrip s))) as [k2 Hk2].
  rewrite Hk1 at 2. apply sublist_inserts_l.
  rewrite <- (rev_involutive (lstrip s)) at 2.
  rewrite Hk2 at 2. rewrite rev_app_distr. by apply sublist_inserts_r.
Qed.

Lemma strip_prefixes_sublist (prefixes : list str) (ingredient : str) :
  fold_left
    (fun ingredient prefix =>
       if startswith ingredient prefix
       then strip (drop (length prefix) ingredient)
       else ingredient)
    prefixes ingredient `sublist_of` ingredient.
Proof.
  revert ingredient. induction prefixes as [|p prefixes IH]; intros ingredient; simpl.
  - done.
  - etrans; [apply IH|].
    destruct (startswith ingredient p); [|done].
    etrans; [apply strip_sublist|apply sublist_drop].
Qed.

(** After the removal of the parentheticals [_clean_ingredient] only
    deletes characters. *)
Lemma _clean_ingredient_sublist (ingredient : str) :
  _clean_ingredient ingredient `sublist_of` without_parentheticals ingredient.
Proof.
  unfold _clean_ingredient. cbv zeta.
  case_bool_decide; [apply sublist_nil_l|].
  apply strip_prefixes_sublist.
Qed.

Lemma without_parentheticals_sublist (ingredient : str) :
  without_parentheticals ingredient `sublist_of` without_digits ingredient.
Proof. apply sub_from_sublist. Qed.

Lemma without_digits_sublist (ingredient : str) :
  without_digits ingredient `sublist_of` lower ingredient.
Proof. etrans; [apply sub_from_sublist|apply strip_sublist]. Qed.

Lemma without_digits_no_digit (ingredient : str) :
  Forall (fun c => isdecimal c = false) (without_digits ingredient).
Proof.
  exact (sub_from_deletes false Digit [Star Digit; Opt (Lit (chr "%"))] 0
                          (strip (lower ingredient)) eq_refl).
Qed.

Lemma close_missing (s : str) :
  match_here false [Star (NoneOf (utf8 ")")); One (Lit (chr ")"))] s = None →
  chr ")" ∉ s.
Proof.
  induction s as [|c s IH]; rewrite match_here_star.
  - intros _ Hin. by apply elem_of_nil in Hin.
  - change (atom_match false (NoneOf (utf8 ")")) c) with (negb (N.eqb (chr ")") c || false)).
    change (match_here false [One (Lit (chr ")"))] (c :: s))
      with (if N.eqb (chr ")") c then Some s else None).
    destruct (N.eqb_spec (chr ")") c) as [Heq|Hne]; cbn [orb negb].
    + intros [=].
    + destruct (match_here false _ s) as [rest|]; [intros [=]|].
      intros _ [?|Hin]%elem_of_cons; [done|]. by apply IH.
Qed.

Lemma without_parentheticals_from (k : nat) (s : str) :
  no_parenthetical
    (sub_from false [One (Lit (chr "(")); Star (NoneOf (utf8 ")")); One (Lit (chr ")"))]
              [] k s).
Proof.
  revert k. induction s as [|c s IH]; intros k; [done|].
  cbn [sub_from]. destruct k as [|k]; [|apply IH].
  destruct (match_here false _ (c :: s)) as [rest|] eqn:E.
  - apply match_here_one_Some in E as (c' & s' & [= <- <-] & _ & Hsuffix).
    apply suffix_length in Hsuffix.
    destruct (length (c :: s) - length rest)%nat eqn:En; simpl in En; [lia|].
    apply IH.
  - split; [|apply IH]. intros -> Hin.
    assert (chr ")" ∉ s) as Hs by (by apply close_missing).
    apply Hs. eapply elem_of_sublist; [apply sub_from_sublist|exact Hin].
Qed.

(** The candidates cut by [re.split] hold no separator. *)
Lemma re_split_separators (text : str) :
  Forall (Forall (fun c => c ∉ sep_chars)) (re_split false separators text).
Proof.
  assert (Forall (Forall (fun c => atom_match false (OneOf sep_chars) c = false))
                 (re_split false separators text)) as Hpieces
    by (by apply (split_from_pieces false (OneOf sep_chars) [Star Space] 0 [] text)).
  eapply Forall_impl; [exact Hpieces|]. intros piece Hpiece.
  eapply Forall_impl; [exact Hpiece|]. intros c Hc Hin. cbn [atom_match] in Hc.
  apply not_true_iff_false in Hc. apply Hc.
  apply existsb_exists. exists c. split; [by apply list_elem_of_In|].
  unfold char_match. apply N.eqb_refl.
Qed.

Lemma extract_ingredients_Forall (P : str → str → Prop) (text : option str) :
  (∀ piece, P piece (_clean_ingredient piece)) →
  Forall (fun token =>
            ∃ piece, piece ∈ re_split false separators (_clean_text (default [] text))
                     ∧ token = _clean_ingredient piece ∧ P piece token)
         (extract_ingredients text).
Proof.
  intros HP. destruct text as [[|c text]|]; [constructor| |constructor].
  rewrite extract_ingredients_eq. simpl.
  apply Forall_forall. intros token Hin.
  apply list_elem_of_In, in_map_iff in Hin as (piece & <- & Hin).
  apply filter_In in Hin as [Hin _]. exists piece.
  split; [by apply list_elem_of_In|]. auto.
Qed.

(** X6: no token holds a decimal digit. *)
Theorem extract_ingredients_no_digit (text : option str) :
  Forall (Forall (fun c => isdecimal c = false)) (extract_ingredients text).
Proof.
  eapply Forall_impl;
    [apply (extract_ingredients_Forall (fun _ token => Forall (fun c => isdecimal c = false) token))|].
  - intros piece.
    eapply Forall_sublist; [|apply without_digits_no_digit].
    etrans; [apply _clean_ingredient_sublist|apply without_parentheticals_sublist].
  - by intros token (piece & _ & _ & Htoken).
Qed.

(** X7: no token holds an opening parenthesis followed, anywhere later,
    by a closing one. *)
Theorem extract_ingredients_no_parenthetical (text : option str) :
  Forall (fun token =>
            ∀ before middle after,
              token ≠ before ++ chr "(" :: middle ++ chr ")" :: after)
         (extract_ingredients text).
Proof.
  eapply Forall_impl;
    [apply (extract_ingredients_Forall (fun _ token => no_parenthetical token))|].
  - intros piece.
    eapply no_parenthetical_sublist; [apply _clean_ingredient_sublist|].
    apply without_parentheticals_from.
  - intros token (piece & _ & _ & Htoken) before middle after.
    by apply no_parenthetical_spec.
Qed.

(** X8: every token is what is left, in order, of the lowered form of one
    candidate cut at the separators, and the candidate holds no
    separator: the cleaning only deletes characters. *)
Theorem extract_ingredients_from_pieces (text : option str) :
  Forall (fun token =>
            ∃ piece, piece ∈ re_split false separators (_clean_text (default [] text))
                     ∧ Forall (fun c => c ∉ sep_chars) piece
                     ∧ token `sublist_of` lower piece)
         (extract_ingredients text).
Proof.
  eapply Forall_impl;
    [apply (extract_ingredients_Forall (fun piece token => token `sublist_of` lower piece))|].
  - intros piece.
    etrans; [apply _clean_ingredient_sublist|].
    etrans; [apply without_parentheticals_sublist|apply without_digits_sublist].
  - intros token (piece & Hin & _ & Htoken). exists piece.
    split; [done|]. split; [|done].
    pose proof (re_split_separators (_clean_text (default [] text))) as Hpieces.
    rewrite Forall_forall in Hpieces. auto.
Qed.

(** X9: when lowering a text without separator gives a text without
    separator, no token holds a separator. *)
Theorem extract_ingredients_no_separator (text : option str) :
  (∀ s, Forall (fun c => c ∉ sep_chars) s → Forall (fun c => c ∉ sep_chars) (lower s)) →
  Forall (Forall (fun c => c ∉ sep_chars)) (extract_ingredients text).
Proof.
  intros Hlower.
  eapply Forall_impl;
    [apply (extract_ingredients_Forall (fun piece token => token `sublist_of` lower piece))|].
  - intros piece.
    etrans; [apply _clean_ingredient_sublist|].
    etrans; [apply without_parentheticals_sublist|apply without_digits_sublist].
  - intros token (piece & Hin & _ & Htoken).
    eapply Forall_sublist; [exact Htoken|]. apply Hlower.
    pose proof (re_split_separators (_clean_text (default [] text))) as Hpieces.
    rewrite Forall_forall in Hpieces. auto.
Qed.
End TokenProps.

(** ** More on the store *)

Lemma insert_or_ignore_cases (table : list row) (r : row) :
  (has_name table (row_name r) = true ∧ insert_or_ignore table r = table)
  ∨ (has_name table (row_name r) = false ∧ insert_or_ignore table r = table ++ [r]).
Proof.
  unfold insert_or_ignore. fold (has_name table (row_name r)).
  destruct (has_name table (row_name r)); auto.
Qed.

Lemma has_name_spec (table : list row) (name : str) :
  has_name table name = true ↔ name ∈ map row_name table.
Proof.
  unfold has_name. rewrite existsb_exists, list_elem_of_In, in_map_iff.
  split; intros (r & H1 & H2); exists r.
  - by apply bool_decide_eq_true in H2.
  - split; [done|]. by apply bool_decide_eq_true.
Qed.

Lemma populate_extends (rows table : list row) :
  ∃ added,
    fold_left insert_or_ignore rows table = table ++ added
    ∧ added `sublist_of` rows
    ∧ Forall (fun r => has_name table (row_name r) = false) added.
Proof.
  revert table. induction rows as [|r rows IH]; intros table; simpl.
  - exists []. by rewrite app_nil_r.
  - destruct (insert_or_ignore_cases table r) as [[_ ->]|[Hfresh ->]].
    + destruct (IH table) as (added & -> & Hsub & Hadded).
      exists added. repeat split; [|done]. by apply sublist_cons.
    + destruct (IH (table ++ [r])) as (added & -> & Hsub & Hadded).
      exists (r :: added). rewrite <- app_assoc. repeat split.
      * by apply sublist_skip.
      * constructor; [done|].
        eapply Forall_impl; [exact Hadded|]. intros r' Hr'. cbv beta in Hr'.
        rewrite has_name_app in Hr'. by apply orb_false_elim in Hr' as [? _].
Qed.

Lemma populate_unique (rows table : list row) :
  NoDup (map row_name table) →
  NoDup (map row_name (fold_left insert_or_ignore rows table)).
Proof.
  revert table. induction rows as [|r rows IH]; intros table Hnodup; [done|].
  simpl. apply IH.
  destruct (insert_or_ignore_cases table r) as [[_ ->]|[Hfresh ->]]; [done|].
  rewrite map_app. simpl. apply NoDup_app. repeat split; [done| |apply NoDup_singleton].
  intros name Hname ->%list_elem_of_singleton.
  apply has_name_spec in Hname. congruence.
Qed.

(** X10: seeding keeps the rows of the table as they are and in place,
    appends only base rows, in the order of the base table and each under
    a name the table did not hold, and afterwards every base name is in
    the table. *)
Theorem _init_database_extends (table : list row) :
  (∃ added,
     _init_database table = table ++ added
     ∧ added `sublist_of` base_allergens
     ∧ Forall (fun r => has_name table (row_name r) = false) added)
  ∧ Forall (fun r => has_name (_init_database table) (row_name r) = true) base_allergens.
Proof.
  split; [apply populate_extends|].
  apply Forall_forall. intros r Hin. by apply populate_all.
Qed.

(** X11: seeding keeps the names of the table pairwise distinct, as the
    column is declared. *)
Theorem _init_database_unique_names (table : list row) :
  NoDup (map row_name table) → NoDup (map row_name (_init_database table)).
Proof. apply populate_unique. Qed.

Lemma sublist_List_filter {A} (f : A → bool) (l : list A) : List.filter f l `sublist_of` l.
Proof.
  induction l as [|x l IH]; simpl; [done|].
  destruct (f x); [by apply sublist_skip|by apply sublist_cons].
Qed.

Lemma List_filter_all {A} (f : A → bool) (l : list A) :
  (∀ x, f x = true) → List.filter f l = l.
Proof.
  intros Hf. induction l as [|x l IH]; cbn [List.filter]; [done|].
  by rewrite Hf, IH.
Qed.

Lemma sublist_map {A B} (f : A → B) (l k : list A) :
  l `sublist_of` k → map f l `sublist_of` map f k.
Proof.
  induction 1; simpl; [done| |]; [by apply sublist_skip|by apply sublist_cons].
Qed.

Lemma like_match_percents (pattern s : str) :
  pattern ≠ [] → Forall (fun c => c = chr "%") pattern → like_match pattern s = true.
Proof.
  intros Hne Hall. revert s.
  induction Hall as [|p pattern -> Hall IH]; [done|]. intros s.
  rewrite like_match_percent. apply like_any_true.
  destruct pattern as [|p' pattern].
  - exists s, []. by rewrite app_nil_r.
  - exists [], s. split; [done|]. by apply IH.
Qed.



Section SearchProps.
Context `{Unicode}.

Lemma search_allergens_all_rows (db : list row) (ingredient : str) :
  Forall (fun c => c = chr "%") (strip (lower ingredient)) →
  search_allergens db ingredient = map allergen_of_row db.
Proof.
  intros Hblank. rewrite search_allergens_eq. f_equal.
  apply List_filter_all. intros r.
  assert (nul_free (strip (lower ingredient))) as Hnul
    by (eapply Forall_impl; [exact Hblank|]; by intros c -> [=]).
  unfold row_selected. apply orb_true_iff. left.
  rewrite sql_like_pattern by done.
  apply like_match_percents; [done|].
  constructor; [done|]. apply Forall_app. split; [done|]. by constructor.
Qed.

Lemma percents_no_surrogate (pattern : str) :
  Forall (fun c => c = chr "%") pattern → existsb is_surrogate pattern = false.
Proof. induction 1 as [|c pattern -> _ IH]; [done|]. simpl. exact IH. Qed.

(** X12: for a token that is empty once lowered and stripped, or made of
    percent signs only, the search returns the record of each row of the
    table, unless the pattern is longer than the limit of [LIKE] and the
    table has a row: then the query raises [OperationalError]. *)
Theorem search_allergens_blank (db : list row) (ingredient : str) :
  Forall (fun c => c = chr "%") (strip (lower ingredient)) →
  search_allergens_outcome db ingredient
  = if (like_pattern_limit <? utf8_length (like_pattern ingredient))%N
       && negb (bool_decide (db = []))
    then inl OperationalError
    else inr (map allergen_of_row db).
Proof.
  intros Hblank. unfold search_allergens_outcome, query_error. cbv zeta.
  fold (like_pattern ingredient).
  rewrite percents_no_surrogate.
  - destruct ((like_pattern_limit <? utf8_length (like_pattern ingredient))%N
              && negb (bool_decide (db = []))); [done|].
    by rewrite search_allergens_all_rows.
  - unfold like_pattern.
    constructor; [done|]. apply Forall_app. split; [done|]. by constructor.
Qed.

(** X13: the records come in the order of the table, at most one for each
    row, so never more of them than rows. *)
Theorem search_allergens_in_table_order (db : list row) (ingredient : str) :
  search_allergens db ingredient `sublist_of` map allergen_of_row db
  ∧ (length (search_allergens db ingredient) ≤ length db)%nat.
Proof.
  assert (search_allergens db ingredient `sublist_of` map allergen_of_row db) as Hsub.
  { rewrite search_allergens_eq. apply sublist_map, sublist_List_filter. }
  split; [done|]. apply sublist_length in Hsub. by rewrite length_map in Hsub.
Qed.

End SearchProps.

(** ** More on the assessor *)

Lemma assess_risk_fold (user_allergens : gmap str Z) (ds : list detected) :
  assess_risk user_allergens ds = fold_left (assess_step user_allergens) ds LOW.
Proof. by destruct ds. Qed.

Lemma escalation_None (user_allergens : gmap str Z) (a : detected) :
  escalation user_allergens a = None
  ↔ ∀ u, user_allergens !! d_type a = Some u → u + d_severity a < 4.
Proof.
  unfold escalation. destruct (user_allergens !! d_type a) as [u|]; [|done].
  cbv zeta.
  destruct (8 <=? Z.min (u + d_severity a) 10) eqn:E8;
    [|destruct (6 <=? Z.min (u + d_severity a) 10) eqn:E6;
      [|destruct (4 <=? Z.min (u + d_severity a) 10) eqn:E4]];
    rewrite ?Z.leb_le, ?Z.leb_gt in *.
  all: split; [try done; intros _ u' [= <-]; lia | intros Hu; specialize (Hu u eq_refl); try done; lia].
Qed.

Lemma escalation_not_LOW (user_allergens : gmap str Z) (a : detected) (l : RiskLevel) :
  escalation user_allergens a = Some l → l ≠ LOW.
Proof.
  unfold escalation. destruct (user_allergens !! d_type a) as [u|]; [|done].
  cbv zeta. repeat case_match; by intros [= <-].
Qed.

Lemma fold_left_filter_noop {A B} (f : B → bool) (step : A → B → A) (l : list B) (acc : A) :
  (∀ acc x, f x = false → step acc x = acc) →
  fold_left step (List.filter f l) acc = fold_left step l acc.
Proof.
  intros Hstep. revert acc. induction l as [|x l IH]; intros acc; [done|].
  cbn [List.filter fold_left]. destruct (f x) eqn:E.
  - apply IH.
  - rewrite (Hstep acc x E). apply IH.
Qed.

Lemma in_profile_false (user_allergens : gmap str Z) (a : detected) :
  in_profile user_allergens a = false → user_allergens !! d_type a = None.
Proof.
  unfold in_profile. intros Hf%bool_decide_eq_false.
  destruct (user_allergens !! d_type a); [|done]. destruct Hf. by eexists.
Qed.

Lemma assess_risk_LOW (user_allergens : gmap str Z) (ds : list detected) :
  assess_risk user_allergens ds = LOW
  ↔ Forall (fun a => escalation user_allergens a = None) ds.
Proof.
  rewrite assess_risk_fold, assess_fold_last. split.
  - intros Hlow. apply Forall_forall. intros a Hin.
    destruct (escalation user_allergens a) as [l|] eqn:E; [|done].
    assert (l ∈ omap (escalation user_allergens) ds) as Hl
      by (apply list_elem_of_omap; eauto).
    destruct (last (omap (escalation user_allergens) ds)) as [l'|] eqn:Elast.
    + simpl in Hlow. subst l'.
      apply last_Some_elem_of, list_elem_of_omap in Elast as (a' & _ & Ea').
      by apply escalation_not_LOW in Ea'.
    + assert (is_Some (last (omap (escalation user_allergens) ds))) as [? ?]
        by (apply last_is_Some; intros Hnil; rewrite Hnil in Hl; by apply elem_of_nil in Hl).
      congruence.
  - intros Hnone.
    assert (omap (escalation user_allergens) ds = []) as ->; [|done].
    induction Hnone as [|a ds Ha Hnone IH]; [done|]. simpl. by rewrite Ha.
Qed.

(** X15: the level is LOW exactly when no detected allergen of the
    profile has a profile severity and an intrinsic severity adding up to
    4 or more. *)
Theorem assess_risk_low_iff (user_allergens : gmap str Z) (ds : list detected) :
  assess_risk user_allergens ds = LOW
  ↔ Forall (fun a => ∀ u, user_allergens !! d_type a = Some u → u + d_severity a < 4) ds.
Proof.
  rewrite assess_risk_LOW. apply Forall_iff. intros a. apply escalation_None.
Qed.

(** X16: the detected allergens whose category is not in the profile
    change neither the level nor the warnings. *)
Theorem assess_risk_ignores_unprofiled (user_allergens : gmap str Z) (ds : list detected) :
  assess_risk user_allergens (List.filter (in_profile user_allergens) ds)
  = assess_risk user_allergens ds
  ∧ generate_warnings user_allergens (List.filter (in_profile user_allergens) ds)
    = generate_warnings user_allergens ds.
Proof.
  split.
  - rewrite !assess_risk_fold. apply fold_left_filter_noop.
    intros l a Ha%in_profile_false. unfold assess_step. by rewrite Ha.
  - unfold generate_warnings. apply fold_left_filter_noop.
    intros ws a Ha%in_profile_false. unfold warn_step. by rewrite Ha.
Qed.

(** X17: a level above LOW never comes without a warning. *)
Theorem assess_risk_warned (user_allergens : gmap str Z) (ds : list detected) :
  assess_risk user_allergens ds ≠ LOW → generate_warnings user_allergens ds ≠ [].
Proof.
  intros Hrisk Hwarn. apply Hrisk. apply assess_risk_LOW.
  rewrite generate_warnings_concat in Hwarn. clear Hrisk.
  induction ds as [|a ds IH]; [constructor|].
  simpl in Hwarn. apply app_eq_nil in Hwarn as [Ha Hds].
  constructor; [|by apply IH].
  destruct (user_allergens !! d_type a) as [u|] eqn:Hu.
  - destruct (warnings_of_profiled _ _ _ Hu) as (w & Hw & _). congruence.
  - unfold escalation. by rewrite Hu.
Qed.

(** X18: for one detected allergen, a higher profile severity or a higher
    intrinsic severity never gives a lower level. *)
Theorem assess_risk_single_monotone (user_allergens : gmap str Z)
    (a a' : detected) (u u' : Z) :
  d_type a = d_type a' → u ≤ u' → d_severity a ≤ d_severity a' →
  (rank (assess_risk (<[d_type a := u]> user_allergens) [a])
   ≤ rank (assess_risk (<[d_type a := u']> user_allergens) [a']))%nat.
Proof.
  intros Htype Hu Hs. unfold assess_risk, assess_step. simpl.
  rewrite <- Htype, !lookup_insert_eq.
  repeat case_match; simpl; rewrite ?Z.leb_le, ?Z.leb_gt in *; lia.
Qed.

(** ** More on the detector *)

Section ScanProps.
Context `{Unicode}.

Lemma search_allergens_rows (db : list row) (ingredient : str) (a : allergen) :
  a ∈ search_allergens db ingredient → ∃ r, r ∈ db ∧ a = allergen_of_row r.
Proof.
  rewrite search_allergens_eq, list_elem_of_In, in_map_iff.
  intros (r & <- & [Hin _]%filter_In). exists r. by rewrite list_elem_of_In.
Qed.

Lemma _analyze_ingredients_detect (self : AllergenDetector) (tokens : list str) :
  let ds := detect (allergen_db self) tokens in
  detected_allergens (_analyze_ingredients self tokens) = ds
  ∧ risk_level (_analyze_ingredients self tokens) = assess_risk (risk_assessor self) ds
  ∧ warnings (_analyze_ingredients self tokens) = generate_warnings (risk_assessor self) ds
  ∧ safe (_analyze_ingredients self tokens) = bool_decide (ds = []).
Proof.
  cbv zeta. rewrite _analyze_ingredients_safe, _analyze_ingredients_eq.
  cbn [detected_allergens risk_level warnings].
  repeat split. apply bool_decide_ext. split; [by intros [_ ?]|].
  intros ->. by split.
Qed.

Lemma detect_step_fold_noop (token : str) (found : list allergen) (ds : list detected) :
  (∀ a, a ∈ found → a_type a ∈ map d_type ds) →
  fold_left (detect_step token) found ds = ds.
Proof.
  induction found as [|a found IH]; intros Hall; [done|]. simpl.
  destruct (detect_step_cases token ds a) as [[_ ->]|[Hout _]].
  - apply IH. intros a' Ha'. by apply Hall, list_elem_of_further.
  - destruct Hout. apply Hall, list_elem_of_here.
Qed.

Lemma detect_prefix (db : list row) (tokens more : list str) :
  detect db tokens `prefix_of` detect db (tokens ++ more).
Proof.
  induction more as [|token more IH] using rev_ind.
  - by rewrite app_nil_r.
  - rewrite app_assoc, detect_snoc.
    destruct (detect_step_fold token (search_allergens db token) (detect db (tokens ++ more)))
      as (new & -> & _).
    by apply prefix_app_r.
Qed.

Lemma detect_repeat (db : list row) (tokens more : list str) :
  (∀ token, token ∈ more → token ∈ tokens) →
  detect db (tokens ++ more) = detect db tokens.
Proof.
  induction more as [|token more IH] using rev_ind; intros Hmore.
  - by rewrite app_nil_r.
  - rewrite app_assoc, detect_snoc.
    rewrite IH by (intros t Ht; apply Hmore, elem_of_app; by left).
    apply detect_step_fold_noop. intros a Ha.
    destruct (detect_invariant db tokens) as (_ & _ & Hall).
    apply (Hall token a); [|done].
    apply Hmore, elem_of_app. right. apply list_elem_of_here.
Qed.

(** X5: a scan is safe exactly when it detects nothing; the level adds
    no condition, since without a detection it is LOW. *)
Theorem scan_text_safe_iff (self : AllergenDetector) (text : option str) :
  safe (scan_text self text) = true ↔ detected_allergens (scan_text self text) = [].
Proof.
  unfold scan_text.
  destruct (_analyze_ingredients_detect self (extract_ingredients text))
    as (-> & _ & _ & ->).
  apply bool_decide_eq_true.
Qed.

(** X19: every detected allergen bears the name, the category and the
    severity of a row of the store and a token of the result, and there
    are never more detected allergens than rows. *)
Theorem scan_text_detected_from_store (self : AllergenDetector) (text : option str) :
  let r := scan_text self text in
  Forall (fun d =>
            d_matched_ingredient d ∈ ingredients r
            ∧ ∃ row, row ∈ allergen_db self
                     ∧ d_name d = row_name row
                     ∧ d_type d = row_type row
                     ∧ d_severity d = row_severity row)
         (detected_allergens r)
  ∧ (length (detected_allergens r) ≤ length (allergen_db self))%nat.
Proof.
  cbv zeta. unfold scan_text. rewrite _analyze_ingredients_found.
  destruct (_analyze_ingredients_detect self (extract_ingredients text)) as (-> & _).
  destruct (detect_invariant (allergen_db self) (extract_ingredients text))
    as (Hnodup & Hfirst & _).
  assert (Forall (fun d =>
            d_matched_ingredient d ∈ extract_ingredients text
            ∧ ∃ row, row ∈ allergen_db self
                     ∧ d_name d = row_name row
                     ∧ d_type d = row_type row
                     ∧ d_severity d = row_severity row)
            (detect (allergen_db self) (extract_ingredients text))) as Hrows.
  { eapply Forall_impl; [exact Hfirst|].
    intros d (i & a & before & after & Hi & Hsearch & Hd & _).
    split; [apply list_elem_of_lookup; eauto|].
    destruct (search_allergens_rows (allergen_db self) (d_matched_ingredient d) a)
      as (row & Hrow & ->).
    { rewrite Hsearch. apply elem_of_app. right. apply list_elem_of_here. }
    exists row. by rewrite Hd. }
  split; [exact Hrows|].
  rewrite <- (length_map d_type), <- (length_map row_type (allergen_db self)).
  apply submseteq_length, NoDup_submseteq; [done|].
  intros t (d & -> & Hd)%list_elem_of_fmap.
  rewrite Forall_forall in Hrows.
  destruct (Hrows d Hd) as (_ & row & Hrow & _ & -> & _).
  by apply list_elem_of_fmap_2.
Qed.

(** X20: tokens added at the end keep the detected allergens found so
    far, in place: the earlier list is the beginning of the later one. *)
Theorem _analyze_ingredients_prefix (self : AllergenDetector) (tokens more : list str) :
  detected_allergens (_analyze_ingredients self tokens)
  `prefix_of` detected_allergens (_analyze_ingredients self (tokens ++ more)).
Proof.
  destruct (_analyze_ingredients_detect self tokens) as (-> & _).
  destruct (_analyze_ingredients_detect self (tokens ++ more)) as (-> & _).
  apply detect_prefix.
Qed.

(** X21: tokens that occurred before add nothing: the detected
    allergens, the level, the warnings and the safety stay the same. *)
Theorem _analyze_ingredients_repeat (self : AllergenDetector) (tokens more : list str) :
  (∀ token, token ∈ more → token ∈ tokens) →
  let r := _analyze_ingredients self tokens in
  let r' := _analyze_ingredients self (tokens ++ more) in
  detected_allergens r' = detected_allergens r
  ∧ risk_level r' = risk_level r
  ∧ warnings r' = warnings r
  ∧ safe r' = safe r.
Proof.
  intros Hmore. cbv zeta.
  destruct (_analyze_ingredients_detect self tokens) as (-> & -> & -> & ->).
  destruct (_analyze_ingredients_detect self (tokens ++ more)) as (-> & -> & -> & ->).
  by rewrite detect_repeat.
Qed.

Lemma analyze_fold_outcome_inl (db : list row) (tokens : list str) (e : error) :
  fold_left (analyze_step_outcome db) tokens (inl e) = inl e.
Proof. induction tokens as [|token tokens IH]; [done|]. exact IH. Qed.

Lemma analyze_fold_outcome_ok (db : list row) (tokens : list str)
    (st : list detected * list str) :
  Forall (query_ok db) tokens →
  fold_left (analyze_step_outcome db) tokens (inr st)
  = inr (fold_left (analyze_step db) tokens st).
Proof.
  intros Hok. revert st. induction Hok as [|token tokens Htoken _ IH]; intros [ds found].
  - done.
  - cbn [fold_left]. unfold analyze_step_outcome at 2, analyze_step at 2.
    rewrite (search_allergens_outcome_ok db token Htoken). apply IH.
Qed.

Lemma analyze_fold_outcome_raises (db : list row) (tokens : list str)
    (st : list detected * list str) (e : error) :
  fold_left (analyze_step_outcome db) tokens (inr st) = inl e →
  Exists (fun token => search_allergens_outcome db token = inl e) tokens.
Proof.
  revert st. induction tokens as [|token tokens IH]; intros [ds found]; [done|].
  cbn [fold_left]. unfold analyze_step_outcome at 2.
  destruct (search_allergens_outcome db token) as [e'|found'] eqn:E.
  - rewrite analyze_fold_outcome_inl. intros [= ->]. by left.
  - intros Hfold. right. by apply (IH _ Hfold).
Qed.

Lemma _analyze_ingredients_outcome_ok (self : AllergenDetector) (tokens : list str) :
  Forall (query_ok (allergen_db self)) tokens →
  _analyze_ingredients_outcome self tokens = inr (_analyze_ingredients self tokens).
Proof.
  intros Hok. unfold _analyze_ingredients_outcome, _analyze_ingredients.
  rewrite (analyze_fold_outcome_ok _ _ _ Hok).
  by destruct (fold_left (analyze_step (allergen_db self)) tokens ([], [])) as [ds found].
Qed.

(** X22: when no query raises, one token that is blank once lowered and
    stripped, or made of percent signs only, has every category of the
    store detected. *)
Theorem _analyze_ingredients_blank_token (self : AllergenDetector)
    (tokens : list str) (token : str) :
  token ∈ tokens →
  Forall (fun c => c = chr "%") (strip (lower token)) →
  Forall (query_ok (allergen_db self)) tokens →
  ∃ r, _analyze_ingredients_outcome self tokens = inr r
       ∧ Forall (fun row => row_type row ∈ map d_type (detected_allergens r))
                (allergen_db self).
Proof.
  intros Hin Hblank Hok.
  exists (_analyze_ingredients self tokens).
  split; [by apply _analyze_ingredients_outcome_ok|].
  destruct (_analyze_ingredients_detect self tokens) as (-> & _).
  destruct (detect_invariant (allergen_db self) tokens) as (_ & _ & Hall).
  apply Forall_forall. intros row Hrow.
  apply (Hall token (allergen_of_row row) Hin).
  rewrite search_allergens_all_rows by done.
  by apply list_elem_of_fmap_2.
Qed.

(** X24: a scan returns when the query of none of its tokens raises, and
    then returns what [scan_text] gives; when it raises, the exception is
    the one of the query of one of its tokens. *)
Theorem scan_text_outcome_cases (self : AllergenDetector) (text : option str) :
  (Forall (query_ok (allergen_db self)) (extract_ingredients text) →
   scan_text_outcome self text = inr (scan_text self text))
  ∧ (∀ e, scan_text_outcome self text = inl e →
          Exists (fun token => search_allergens_outcome (allergen_db self) token = inl e)
                 (extract_ingredients text)).
Proof.
  split.
  - apply _analyze_ingredients_outcome_ok.
  - intros e. unfold scan_text_outcome, _analyze_ingredients_outcome. cbv zeta.
    destruct (fold_left _ (extract_ingredients text) (inr ([], [])))
      as [e'|[ds found]] eqn:E; [|done].
    intros [= ->]. by apply (analyze_fold_outcome_raises _ _ _ _ E).
Qed.

(** X23: the confidence never exceeds 1.0. *)
Theorem _calculate_confidence_cap (ds : list detected) (tokens : list str) :
  PrimFloat.ltb 1.0 (_calculate_confidence ds tokens) = false.
Proof.
  unfold _calculate_confidence. destruct tokens as [|token tokens]; [reflexivity|].
  cbv zeta. unfold py_min.
  match goal with |- context [if PrimFloat.ltb 1.0 ?c then _ else _] =>
    destruct (PrimFloat.ltb 1.0 c) eqn:E end; [reflexivity|exact E].
Qed.
End ScanProps.

(** * The seeded store and the demonstration of [main]

    The statements below are evaluations on a detector created over a new
    database file, with the runtime table [BasicUnicode]. *)

Example extract_demo :
  extract_ingredients
    (Some (utf8 "Ingredients: Wheat flour, sugar, peanuts, milk powder, salt, shrimp powder"))
  = map utf8 ["wheat flour"; "peanuts"; "milk powder"; "shrimp powder"]%string.
Proof. vm_compute. reflexivity. Qed.

Example extract_percent :
  extract_ingredients (Some (utf8 "Water 70%, 5% salt, milk (skimmed) 3%；花生、水"))
  = map utf8 ["water "; " salt"; "milk  "; "花生"]%string.
Proof. vm_compute. reflexivity. Qed.

(** C1 (defect of [assess_risk]): the loop assigns [max_risk] at every
    escalating allergen without comparing, so the level of the last one
    wins.  With the profile of [main], peanuts alone give SEVERE, peanuts
    followed by milk give MODERATE, and milk followed by peanuts give
    SEVERE; the scan of "peanuts, milk" reports MODERATE. *)
Theorem assess_risk_last_escalation_wins :
  assess_risk demo_profile [peanuts_entry] = SEVERE
  ∧ assess_risk demo_profile [milk_entry] = MODERATE
  ∧ assess_risk demo_profile [peanuts_entry; milk_entry] = MODERATE
  ∧ assess_risk demo_profile [milk_entry; peanuts_entry] = SEVERE
  ∧ (rank (assess_risk demo_profile [peanuts_entry; milk_entry])
     < rank (assess_risk demo_profile [peanuts_entry]))%nat
  ∧ (let r := scan_text (AllergenDetector_init [] (Some demo_profile))
                        (Some (utf8 "peanuts, milk")) in
     detected_allergens r = [peanuts_entry; milk_entry] ∧ risk_level r = MODERATE).
Proof.
  repeat split; try (vm_compute; reflexivity).
  vm_compute. lia.
Qed.

(** C2 (defect of [search_allergens]): the query asks whether the stored
    name or alias field contains the token, never whether the token
    contains a name or an alias.  The token "milk powder" begins with the
    name "milk", which the store finds for the token "milk", and yet the
    search for "milk powder" returns nothing. *)
Theorem search_allergens_milk_powder :
  let db := _init_database [] in
  map a_name (search_allergens db (utf8 "milk")) = [utf8 "milk"]
  ∧ utf8 "milk powder" = utf8 "milk" ++ utf8 " powder"
  ∧ search_allergens db (utf8 "milk powder") = [].
Proof. vm_compute. repeat split. Qed.

(** C3 (same defect as C2): on the text and the profile of the
    demonstration the tokens are "wheat flour", "peanuts", "milk powder"
    and "shrimp powder"; only the category peanut is detected (neither
    dairy nor shellfish), the level is SEVERE, the result is not safe and
    the one warning is the severe message for peanuts. *)
Theorem scan_text_demo :
  let r := scan_text (AllergenDetector_init [] (Some demo_profile)) (Some demo_text) in
  ingredients r = map utf8 ["wheat flour"; "peanuts"; "milk powder"; "shrimp powder"]%string
  ∧ map d_type (detected_allergens r) = [utf8 "peanut"]
  ∧ risk_level r = SEVERE
  ∧ safe r = false
  ∧ warnings r = [severe_warning (utf8 "peanuts")].
Proof. vm_compute. repeat split. Qed.

(** C4, counterexample: for the empty text nothing is detected, there is
    no token, and the confidence is 0.0, not 0.5. *)
Lemma scan_text_empty_confidence :
  let r := scan_text (AllergenDetector_init [] None) (Some []) in
  detected_allergens r = []
  ∧ length (ingredients r) = 0%nat
  ∧ confidence r = 0.0%float
  ∧ confidence r ≠ 0.5%float.
Proof.
  vm_compute. repeat split.
  intros Heq.
  assert (PrimFloat.eqb 0.0 0.5 = true) as Habs by (rewrite <- Heq; reflexivity).
  vm_compute in Habs. discriminate Habs.
Qed.

(** C4, on the demonstration: one allergen detected over four tokens,
    so the confidence is 0.6 + (1 / 4) * 0.4 = 0.7. *)
Lemma scan_text_confidence_demo :
  let r := scan_text (AllergenDetector_init [] (Some demo_profile)) (Some demo_text) in
  length (detected_allergens r) = 1%nat
  ∧ length (extract_ingredients (Some demo_text)) = 4%nat
  ∧ confidence r = py_min (0.6 + (float_of_len 1 / float_of_len 4) * 0.4) 1.0
  ∧ py_min (0.6 + (float_of_len 1 / float_of_len 4) * 0.4) 1.0 = 0.7%float.
Proof.
  intros r.
  assert (length (detected_allergens r) = 1%nat) as Hd by (vm_compute; reflexivity).
  assert (length (extract_ingredients (Some demo_text)) = 4%nat) as Ht
    by (vm_compute; reflexivity).
  split; [exact Hd|]. split; [exact Ht|]. split; [|vm_compute; reflexivity].
  pose proof (proj1 (scan_text_confidence
                       (AllergenDetector_init [] (Some demo_profile)) (Some demo_text)))
    as Hconf.
  cbv zeta in Hconf. fold r in Hconf. rewrite Hd, Ht in Hconf.
  apply Hconf. lia.
Defined.

(** C5 (defect of [_clean_text]): the pattern for "contain:" is applied
    before the pattern for "may contain:" and consumes the colon, so the
    third pattern never matches and "may " stays in the token. *)
Theorem extract_ingredients_may_contain :
  _clean_text (utf8 "may contain: peanuts") = utf8 "may peanuts"
  ∧ extract_ingredients (Some (utf8 "may contain: peanuts")) = [utf8 "may peanuts"]
  ∧ extract_ingredients (Some (utf8 "peanuts")) = [utf8 "peanuts"].
Proof. vm_compute. repeat split. Qed.


(** C10, at the one-token text "peanuts" and no profile: an allergen is
    detected, the level is LOW, there is no warning and the result is not
    safe. *)
Lemma scan_text_unprofiled_peanuts :
  let r := scan_text (AllergenDetector_init [] None) (Some (utf8 "peanuts")) in
  detected_allergens r ≠ [] ∧ risk_level r = LOW ∧ warnings r = [] ∧ safe r = false.
Proof.
  intros r.
  destruct (scan_text_unprofiled [] None (Some (utf8 "peanuts")) (or_introl eq_refl))
    as (Hrisk & Hwarn & Hsafe).
  assert (detected_allergens r ≠ []) as Hdetected by (vm_compute; discriminate).
  repeat split; auto.
Defined.


(** X4: the empty text and the null text: no token, nothing detected, LOW,
    confidence 0.0, safe, no warning, whatever the store and the
    profile. *)
Theorem scan_text_empty (self : AllergenDetector) :
  let empty := {| ingredients := []; detected_allergens := []; risk_level := LOW;
                  confidence := 0.0; safe := true; warnings := [] |} in
  scan_text self (Some []) = empty ∧ scan_text self None = empty.
Proof. split; reflexivity. Qed.

(** An example of the design: six harmless tokens and no profile: nothing is detected, the
    confidence is 0.8 and the result is safe. *)
Theorem scan_text_six_benign_tokens :
  let r := scan_text (AllergenDetector_init [] None)
                     (Some (utf8 "rice, corn, beans, carrots, onions, garlic")) in
  length (ingredients r) = 6%nat
  ∧ detected_allergens r = []
  ∧ risk_level r = LOW
  ∧ confidence r = 0.8%float
  ∧ safe r = true.
Proof. vm_compute. repeat split. Qed.

(** ** The further properties at concrete inputs *)

Lemma basic_lower_separators (s : str) :
  Forall (fun c => c ∉ sep_chars) s → Forall (fun c => c ∉ sep_chars) (lower s).
Proof.
  intros Hs. change (lower s) with (map ascii_lower_char s).
  apply Forall_map. eapply Forall_impl; [exact Hs|].
  intros c Hc Hin. apply Hc. clear Hc.
  change sep_chars with [44; 65292; 59; 65307; 12289; 10]%N in *.
  unfold ascii_lower_char in Hin.
  destruct ((65 <=? c)%N && (c <=? 90)%N) eqn:E; [|done].
  apply andb_prop in E as [E1%N.leb_le E2%N.leb_le].
  rewrite !elem_of_cons in Hin.
  destruct Hin as [?|[?|[?|[?|[?|[?|Hin]]]]]]; [lia..|by apply elem_of_nil in Hin].
Qed.

(** X9, on the demonstration, with the runtime table [BasicUnicode]. *)
Lemma extract_ingredients_no_separator_demo :
  (∀ s, Forall (fun c => c ∉ sep_chars) s → Forall (fun c => c ∉ sep_chars) (lower s))
  ∧ Forall (Forall (fun c => c ∉ sep_chars)) (extract_ingredients (Some demo_text)).
Proof.
  split; [exact basic_lower_separators|].
  exact (extract_ingredients_no_separator (Some demo_text) basic_lower_separators).
Defined.

(** X11, on a table that already holds a row named "milk": the row is
    kept, the base row of that name is ignored, and the names stay
    distinct. *)
Lemma _init_database_unique_names_milk :
  let table := [ {| row_name := utf8 "milk"; row_type := utf8 "lactose";
                    row_severity := 1; row_aliases := None; row_languages := None |} ] in
  NoDup (map row_name table)
  ∧ length (_init_database table) = 5%nat
  ∧ NoDup (map row_name (_init_database table)).
Proof.
  intros table.
  assert (NoDup (map row_name table)) as Hnodup by (apply NoDup_singleton).
  split; [exact Hnodup|]. split; [vm_compute; reflexivity|].
  exact (_init_database_unique_names table Hnodup).
Defined.

(** X12, at the token of two blanks on the seeded store: the pattern is
    four bytes long and the five records are returned. *)
Lemma search_allergens_blank_spaces :
  Forall (fun c => c = chr "%") (strip (lower (utf8 "  ")))
  ∧ search_allergens_outcome (_init_database []) (utf8 "  ")
    = inr (map allergen_of_row (_init_database []))
  ∧ length (_init_database []) = 5%nat.
Proof.
  assert (Forall (fun c => c = chr "%") (strip (lower (utf8 "  ")))) as Hblank
    by (vm_compute; constructor).
  split; [exact Hblank|]. split; [|vm_compute; reflexivity].
  rewrite (search_allergens_blank (_init_database []) (utf8 "  ") Hblank).
  reflexivity.
Defined.


(** X17, for peanuts under the profile of [main]. *)
Lemma assess_risk_warned_peanuts :
  assess_risk demo_profile [peanuts_entry] ≠ LOW
  ∧ generate_warnings demo_profile [peanuts_entry] ≠ [].
Proof.
  assert (assess_risk demo_profile [peanuts_entry] ≠ LOW) as Hrisk
    by (vm_compute; discriminate).
  split; [exact Hrisk|].
  exact (assess_risk_warned demo_profile [peanuts_entry] Hrisk).
Defined.

(** X18, for milk with the profile severities 0 and 5. *)
Lemma assess_risk_single_monotone_milk :
  (0 ≤ 5)%Z
  ∧ (rank (assess_risk (<[d_type milk_entry := 0%Z]> ∅) [milk_entry])
     ≤ rank (assess_risk (<[d_type milk_entry := 5%Z]> ∅) [milk_entry]))%nat.
Proof.
  split; [lia|].
  apply (assess_risk_single_monotone ∅ milk_entry milk_entry 0 5); [reflexivity|lia|lia].
Defined.

(** X21, on the seeded store: "peanuts, milk" followed by the same two
    tokens again. *)
Lemma _analyze_ingredients_repeat_demo :
  let self := AllergenDetector_init [] (Some demo_profile) in
  let tokens := [utf8 "peanuts"; utf8 "milk"] in
  let more := [utf8 "milk"; utf8 "peanuts"] in
  detected_allergens (_analyze_ingredients self (tokens ++ more))
  = detected_allergens (_analyze_ingredients self tokens)
  ∧ confidence (_analyze_ingredients self (tokens ++ more)) = 0.8%float
  ∧ confidence (_analyze_ingredients self tokens) = 1.0%float.
Proof.
  intros self tokens more.
  assert (∀ token, token ∈ more → token ∈ tokens) as Hmore.
  { intros token Hin. subst tokens more.
    rewrite !elem_of_cons in *. destruct Hin as [->|[->|Hin]]; auto. }
  split; [exact (proj1 (_analyze_ingredients_repeat self tokens more Hmore))|].
  split; vm_compute; reflexivity.
Defined.

(** X22, for the text "1 2 3": the numbers are removed, the one token is
    the two blanks between them, its query raises nothing, and the five
    categories of the seeded store are detected. *)
Lemma _analyze_ingredients_blank_token_demo :
  let self := AllergenDetector_init [] None in
  let tokens := extract_ingredients (Some (utf8 "1 2 3")) in
  tokens = [utf8 "  "]
  ∧ Forall (query_ok (allergen_db self)) tokens
  ∧ ∃ r, scan_text_outcome self (Some (utf8 "1 2 3")) = inr r
         ∧ Forall (fun row => row_type row ∈ map d_type (detected_allergens r))
                  (allergen_db self)
         ∧ length (detected_allergens r) = 5%nat.
Proof.
  intros self tokens.
  assert (tokens = [utf8 "  "]) as Htokens by (vm_compute; reflexivity).
  assert (Forall (query_ok (allergen_db self)) tokens) as Hok
    by (rewrite Htokens; constructor; [vm_compute; reflexivity|constructor]).
  split; [exact Htokens|]. split; [exact Hok|].
  assert (utf8 "  " ∈ tokens) as Hin by (rewrite Htokens; apply list_elem_of_here).
  assert (Forall (fun c => c = chr "%") (strip (lower (utf8 "  ")))) as Hblank
    by (vm_compute; constructor).
  destruct (_analyze_ingredients_blank_token self tokens (utf8 "  ") Hin Hblank Hok)
    as (r & Hr & Hall).
  exists r. split; [exact Hr|]. split; [exact Hall|].
  assert (scan_text_outcome self (Some (utf8 "1 2 3"))
          = inr (scan_text self (Some (utf8 "1 2 3")))) as Hscan
    by (vm_compute; reflexivity).
  change (scan_text_outcome self (Some (utf8 "1 2 3")) = inr r) in Hr.
  rewrite Hscan in Hr. injection Hr as <-. vm_compute. reflexivity.
Defined.
